(** * Color-Picker: a shallow embedding of [src/script.js]

    The script keeps three sliders, a hex text field, the page background
    and the title colour in sync.  The embedding follows the script top to
    bottom: the helper functions ([isValidHexChar], [hexToRgb], [rgbToHex],
    [updateColors]) and then one function per registered event listener.

    Conventions.
    - A JavaScript string is a [string]; a character is a UTF-16 code unit
      below 256 (the Latin-1 range), which covers every character the
      script itself produces or accepts.
    - A JavaScript number that the script uses as a channel value is a
      [num]: an integer or [NaN] (what [parseInt] gives on a string without
      digits).  The luminance is computed on binary64 floats ([float]).
    - The DOM is a record of the properties the script reads or writes. *)

From Stdlib Require Import ZArith Bool List String Ascii Lia.
From Stdlib Require Import QArith Qround.
From Stdlib Require Import Uint63 Floats.
Import ListNotations.

Set Warnings "-inexact-float".

Local Open Scope string_scope.
Local Open Scope Z_scope.

(* ================================================================= *)
(** ** Characters and strings *)

Module Js.

Definition code (c : ascii) : Z := Z.of_N (N_of_ascii c).

Definition inRange (lo hi c : ascii) : bool :=
  (code lo <=? code c) && (code c <=? code hi).

(** [\d] *)
Definition isDigit (c : ascii) : bool := inRange "0" "9" c.

(** The 256 code units of the model, in order. *)
Definition allChars : list ascii :=
  map (fun n => ascii_of_nat n) (seq 0 256).

(** WhiteSpace and LineTerminator code units below 256: TAB, LF, VT, FF,
    CR, SP and NBSP.  These are what [String.prototype.trim] and the
    prefix skipping of [parseInt] remove. *)
Definition isWhiteSpace (c : ascii) : bool :=
  let n := code c in
  ((9 <=? n) && (n <=? 13)) || (n =? 32) || (n =? 160).

Fixpoint trimStart (s : string) : string :=
  match s with
  | EmptyString => EmptyString
  | String c s' => if isWhiteSpace c then trimStart s' else s
  end.

Fixpoint trimEnd (s : string) : string :=
  match s with
  | EmptyString => EmptyString
  | String c s' =>
      match trimEnd s' with
      | EmptyString => if isWhiteSpace c then EmptyString else String c EmptyString
      | t => String c t
      end
  end.

(** [s.trim()] *)
Definition trim (s : string) : string := trimEnd (trimStart s).

(** [s.length] *)
Definition length (s : string) : Z := Z.of_nat (String.length s).

(** Upper-casing of one code unit.  ASCII letters and the Latin-1 letters
    with an upper case inside Latin-1 are shifted by 32; every other code
    unit is kept (for 0xB5, 0xDF and 0xFF the JavaScript result lies
    outside the modelled range; the script never upper-cases them). *)
Definition upper (c : ascii) : ascii :=
  let n := code c in
  if ((97 <=? n) && (n <=? 122))
     || ((224 <=? n) && (n <=? 254) && negb (n =? 247))
  then ascii_of_N (Z.to_N (n - 32))
  else c.

(** [s.toUpperCase()] *)
Fixpoint toUpperCase (s : string) : string :=
  match s with
  | EmptyString => EmptyString
  | String c s' => String (upper c) (toUpperCase s')
  end.

(** *** Numbers *)

Inductive num : Type :=
| NaN
| Num (z : Z).

(** The digit characters of [Number.prototype.toString(radix)]. *)
Definition digitChar (d : Z) : ascii :=
  if d <? 10 then ascii_of_N (Z.to_N (48 + d))
  else ascii_of_N (Z.to_N (97 + (d - 10))).

(** Digits of a non-negative integer, most significant first. *)
Fixpoint digits (fuel : nat) (radix n : Z) (acc : string) : string :=
  match fuel with
  | O => acc
  | S fuel' =>
      let acc' := String (digitChar (n mod radix)) acc in
      if n / radix =? 0 then acc' else digits fuel' radix (n / radix) acc'
  end.

(** [n.toString(radix)] for an integer [n] and [2 <= radix <= 36]; one
    unit of fuel per binary digit is more than the loop needs. *)
Definition intToString (radix n : Z) : string :=
  let m := Z.abs n in
  let body := digits (S (Z.to_nat (Z.log2 m))) radix m EmptyString in
  if n <? 0 then String "-" body else body.

Definition toString (radix : Z) (n : num) : string :=
  match n with
  | NaN => "NaN"
  | Num z => intToString radix z
  end.

(** Value of a character as a digit, for radices up to 36. *)
Definition digitValue (c : ascii) : option Z :=
  let n := code c in
  if (48 <=? n) && (n <=? 57) then Some (n - 48)
  else if (97 <=? n) && (n <=? 122) then Some (n - 97 + 10)
  else if (65 <=? n) && (n <=? 90) then Some (n - 65 + 10)
  else None.

(** The longest prefix of radix-[R] digits, accumulated left to right;
    [None] when the prefix is empty. *)
Fixpoint parseDigits (R : Z) (s : string) (acc : option Z) : option Z :=
  match s with
  | EmptyString => acc
  | String c s' =>
      match digitValue c with
      | Some d =>
          if d <? R
          then parseDigits R s' (Some (match acc with
                                       | Some a => a * R + d
                                       | None => d
                                       end))
          else acc
      | None => acc
      end
  end.

(** [parseInt(s, radix)], with [radix = None] for a call without the
    second argument.  Leading white space is skipped, a sign is read, a
    [0x]/[0X] prefix is dropped when the radix is 16 or absent, and the
    longest digit prefix is read; no digit gives [NaN].  The result is the
    exact integer (JavaScript rounds it to a double above 2^53). *)
Definition parseInt (s : string) (radix : option Z) : num :=
  let s1 := trimStart s in
  let '(neg, s2) :=
    match s1 with
    | String "-" t => (true, t)
    | String "+" t => (false, t)
    | _ => (false, s1)
    end in
  let R0 := match radix with Some r => r | None => 0 end in
  if negb (R0 =? 0) && ((R0 <? 2) || (36 <? R0)) then NaN
  else
    let stripPrefix := (R0 =? 0) || (R0 =? 16) in
    let R1 := if R0 =? 0 then 10 else R0 in
    let '(R, s3) :=
      if stripPrefix then
        match s2 with
        | String "0" (String "x" t) => (16, t)
        | String "0" (String "X" t) => (16, t)
        | _ => (R1, s2)
        end
      else (R1, s2) in
    match parseDigits R s3 None with
    | None => NaN
    | Some v => Num (if neg then - v else v)
    end.

End Js.

Export Js(num(..)).

(* ================================================================= *)
(** ** The regular expressions of the script

    All three patterns are anchored at both ends and are built from an
    optional literal, a starred character class and capture groups of a
    fixed number of class characters.  [exec] is a backtracking matcher
    for such patterns; it returns the captured groups in order. *)

Module Regex.

Inductive item : Type :=
| Opt (c : ascii)                       (* c?          *)
| Star (cls : ascii -> bool)            (* [cls]*      *)
| Group (n : nat) (cls : ascii -> bool) (* ([cls]{n})  *).

Definition regex : Type := list item.

(** Canonicalisation of the [i] flag (without the [u] flag): characters
    are compared by their upper case; a character whose upper case is not
    a single code unit, or is an ASCII character while it is not, is its
    own canonical form.  On the modelled range this is [Js.upper]. *)
Definition canonicalize (c : ascii) : ascii := Js.upper c.

(** A class matches [c] when it has a member with the canonical form of
    [c] (case-insensitive), or when it contains [c] (case-sensitive). *)
Definition classMatches (ignoreCase : bool) (cls : ascii -> bool) (c : ascii) : bool :=
  if ignoreCase
  then existsb (fun m => cls m && Ascii.eqb (canonicalize m) (canonicalize c))
               Js.allChars
  else cls c.

Definition charMatches (ignoreCase : bool) (lit c : ascii) : bool :=
  if ignoreCase then Ascii.eqb (canonicalize lit) (canonicalize c)
  else Ascii.eqb lit c.

(** Exactly [n] class characters at the head of [s]: the captured text
    and the rest. *)
Fixpoint takeClass (ic : bool) (n : nat) (cls : ascii -> bool) (s : string)
  : option (string * string) :=
  match n with
  | O => Some (EmptyString, s)
  | S n' =>
      match s with
      | EmptyString => None
      | String c s' =>
          if classMatches ic cls c then
            match takeClass ic n' cls s' with
            | Some (cap, rest) => Some (String c cap, rest)
            | None => None
            end
          else None
      end
  end.

(** [/^ items $/.exec(s)]: greedy, backtracking on [Opt] and [Star]. *)
Fixpoint exec (ic : bool) (re : regex) (s : string) : option (list string) :=
  match re with
  | [] => match s with EmptyString => Some [] | _ => None end
  | Opt c :: re' =>
      match s with
      | String c' s' =>
          if charMatches ic c c' then
            match exec ic re' s' with
            | Some caps => Some caps
            | None => exec ic re' s
            end
          else exec ic re' s
      | EmptyString => exec ic re' s
      end
  | Star cls :: re' =>
      (fix star (t : string) : option (list string) :=
         match t with
         | String c t' =>
             if classMatches ic cls c then
               match star t' with
               | Some caps => Some caps
               | None => exec ic re' t
               end
             else exec ic re' t
         | EmptyString => exec ic re' t
         end) s
  | Group n cls :: re' =>
      match takeClass ic n cls s with
      | Some (cap, rest) =>
          match exec ic re' rest with
          | Some caps => Some (cap :: caps)
          | None => None
          end
      | None => None
      end
  end.

(** [re.test(s)] *)
Definition test (ic : bool) (re : regex) (s : string) : bool :=
  match exec ic re s with Some _ => true | None => false end.

(** [s.replace(re, f)] for a pattern anchored at both ends: a match is
    the whole string, which the callback's result replaces; without a
    match the string is returned as it is. *)
Definition replace (ic : bool) (re : regex) (f : list string -> string) (s : string)
  : string :=
  match exec ic re s with
  | Some caps => f caps
  | None => s
  end.

End Regex.

(* ================================================================= *)
(** ** The helper functions of the script *)

Import Regex.

(** [[#a-fA-F0-9]] *)
Definition validCharClass (c : ascii) : bool :=
  Ascii.eqb c "#" || Js.inRange "a" "f" c || Js.inRange "A" "F" c
  || Js.inRange "0" "9" c.

(** [[a-f\d]] *)
Definition hexClass (c : ascii) : bool :=
  Js.inRange "a" "f" c || Js.isDigit c.

(** [/^[#a-fA-F0-9]*$/.test(str)] *)
Definition isValidHexChar (str : string) : bool :=
  test false [Star validCharClass] str.

Record rgb : Type := mkRgb { r : num; g : num; b : num }.

(** [/^#?([a-f\d])([a-f\d])([a-f\d])$/i] *)
Definition shorthandRegex : regex :=
  [Opt "#"; Group 1 hexClass; Group 1 hexClass; Group 1 hexClass].

(** [/^#?([a-f\d]{2})([a-f\d]{2})([a-f\d]{2})$/i] *)
Definition fullRegex : regex :=
  [Opt "#"; Group 2 hexClass; Group 2 hexClass; Group 2 hexClass].

Definition hexToRgb (hex : string) : option rgb :=
  let hex :=
    replace true shorthandRegex
      (fun caps =>
         let r := nth 0 caps "" in
         let g := nth 1 caps "" in
         let b := nth 2 caps "" in
         r ++ r ++ g ++ g ++ b ++ b)
      hex in
  match exec true fullRegex hex with
  | None => None
  | Some result =>
      Some {| r := Js.parseInt (nth 0 result "") (Some 16);
              g := Js.parseInt (nth 1 result "") (Some 16);
              b := Js.parseInt (nth 2 result "") (Some 16) |}
  end.

Definition toHex (c : num) : string :=
  let hex := Js.toString 16 c in
  if Js.length hex =? 1 then "0" ++ hex else hex.

Definition rgbToHex (r g b : num) : string :=
  "#" ++ toHex r ++ toHex g ++ toHex b.

(* ================================================================= *)
(** ** The page *)

(** The three sliders ([ranges]), their read-outs ([rangeValues]) and the
    randomize buttons ([randomButtons]) are node lists of three elements,
    indexed 0, 1, 2. *)
Inductive index : Type := I0 | I1 | I2.

Record triple (A : Type) : Type := mkTriple { t0 : A; t1 : A; t2 : A }.
Arguments mkTriple {A} _ _ _.
Arguments t0 {A} _.
Arguments t1 {A} _.
Arguments t2 {A} _.

Definition tget {A : Type} (t : triple A) (i : index) : A :=
  match i with I0 => t0 t | I1 => t1 t | I2 => t2 t end.

Definition tset {A : Type} (t : triple A) (i : index) (v : A) : triple A :=
  match i with
  | I0 => mkTriple v (t1 t) (t2 t)
  | I1 => mkTriple (t0 t) v (t2 t)
  | I2 => mkTriple (t0 t) (t1 t) v
  end.

(** The text of the copy button: what the markup gave it, or the
    confirmation text the script writes after a successful copy. *)
Inductive buttonText : Type :=
| MarkupText
| CopiedText.

Record State : Type := mkState {
  ranges : triple Z;            (* the integer each slider holds *)
  rangeValues : triple string;  (* rangeValues[i].innerText *)
  hexValue : string;            (* hexCodeInput.value *)
  hexError : bool;              (* hexCodeInput.classList has "error" *)
  backgroundColor : string;     (* last value given to body.style.backgroundColor *)
  titleColor : string;          (* last value given to title.style.color *)
  copyText : buttonText;        (* copyButton.innerText *)
  copyColor : string;           (* copyButton.style.backgroundColor *)
  pendingWrites : nat;          (* clipboard writes not yet settled *)
  timers : list buttonText      (* pending 800ms timers, oldest first, each
                                   with the [originalText] it captured *)
}.

(** What a listener asks of the environment. *)
Inductive Effect : Type :=
| WriteText (text : string)   (* navigator.clipboard.writeText(text) *)
| ConsoleError                (* console.error(...) *)
| Alert.                      (* alert(...) *)

(** Modelled from the spec: the markup that declares the sliders is not
    part of the sources; section 6 of the specification gives three slider
    controls with range 0-255 and integer step.  Such a control holds an
    integer of the range: a number assigned to [value] is clamped to it,
    and [NaN] gives the control's default, the rounded midpoint. *)
Definition slider_set (n : num) : Z :=
  match n with
  | Num v => Z.max 0 (Z.min 255 v)
  | NaN => 128
  end.

(** [range.value]: the held integer as a decimal string. *)
Definition slider_value (v : Z) : string := Js.toString 10 (Num v).

(** A channel value as a binary64 float (exact below 2^53). *)
Definition toFloat (n : num) : float :=
  match n with
  | NaN => nan
  | Num z =>
      if z <? 0 then (- of_uint63 (Uint63.of_Z (- z)))%float
      else of_uint63 (Uint63.of_Z z)
  end.

Definition luminance (r g b : num) : float :=
  (toFloat r * 0.2126 + toFloat g * 0.7152 + toFloat b * 0.0722)%float.

Definition with_ranges (s : State) (rs : triple Z) : State :=
  mkState rs (rangeValues s) (hexValue s) (hexError s) (backgroundColor s)
          (titleColor s) (copyText s) (copyColor s) (pendingWrites s) (timers s).

Definition with_rangeValues (s : State) (vs : triple string) : State :=
  mkState (ranges s) vs (hexValue s) (hexError s) (backgroundColor s)
          (titleColor s) (copyText s) (copyColor s) (pendingWrites s) (timers s).

Definition with_hexValue (s : State) (v : string) : State :=
  mkState (ranges s) (rangeValues s) v (hexError s) (backgroundColor s)
          (titleColor s) (copyText s) (copyColor s) (pendingWrites s) (timers s).

Definition with_hexError (s : State) (e : bool) : State :=
  mkState (ranges s) (rangeValues s) (hexValue s) e (backgroundColor s)
          (titleColor s) (copyText s) (copyColor s) (pendingWrites s) (timers s).

Definition with_backgroundColor (s : State) (c : string) : State :=
  mkState (ranges s) (rangeValues s) (hexValue s) (hexError s) c
          (titleColor s) (copyText s) (copyColor s) (pendingWrites s) (timers s).

Definition with_titleColor (s : State) (c : string) : State :=
  mkState (ranges s) (rangeValues s) (hexValue s) (hexError s)
          (backgroundColor s) c (copyText s) (copyColor s) (pendingWrites s)
          (timers s).

Definition with_copy (s : State) (t : buttonText) (c : string) : State :=
  mkState (ranges s) (rangeValues s) (hexValue s) (hexError s)
          (backgroundColor s) (titleColor s) t c (pendingWrites s) (timers s).

Definition with_pending (s : State) (n : nat) (ts : list buttonText) : State :=
  mkState (ranges s) (rangeValues s) (hexValue s) (hexError s)
          (backgroundColor s) (titleColor s) (copyText s) (copyColor s) n ts.

(** [ranges[i].value = n] *)
Definition set_range (s : State) (i : index) (n : num) : State :=
  with_ranges s (tset (ranges s) i (slider_set n)).

(** [rangeValues[i].innerText = text] *)
Definition set_rangeValue (s : State) (i : index) (text : string) : State :=
  with_rangeValues s (tset (rangeValues s) i text).

Definition updateColors (s : State) : State :=
  let r := Js.parseInt (slider_value (tget (ranges s) I0)) None in
  let g := Js.parseInt (slider_value (tget (ranges s) I1)) None in
  let b := Js.parseInt (slider_value (tget (ranges s) I2)) None in
  let rgb := "rgb(" ++ Js.toString 10 r ++ ", " ++ Js.toString 10 g ++ ", "
             ++ Js.toString 10 b ++ ")" in
  let hex := rgbToHex r g b in
  let s := with_backgroundColor s rgb in
  let s := with_hexValue s (Js.toUpperCase hex) in
  let luminance := luminance r g b in
  with_titleColor s (if (140 <? luminance)%float then "#333" else "#FFF").

(* ================================================================= *)
(** ** The event listeners *)

(** 1. [input] on slider [i].  The control already holds the position the
    user chose when the listener runs. *)
Definition onRangeInput (i : index) (s : State) : State :=
  let s := set_rangeValue s i (slider_value (tget (ranges s) i)) in
  let s := with_hexError s false in
  updateColors s.

(** [Math.floor(x * 256)] for a draw [x] of [Math.random()]; the product
    with a power of two is exact on floats, so rationals compute it. *)
Definition randomValue (x : Q) : num := Num (Qfloor (x * 256)).

(** 2. [click] on randomize button [i], with the draw of [Math.random()]. *)
Definition onRandomClick (i : index) (x : Q) (s : State) : State :=
  let randomValue := randomValue x in
  let s := set_range s i randomValue in
  let s := set_rangeValue s i (Js.toString 10 randomValue) in
  let s := with_hexError s false in
  updateColors s.

(** 3. [click] on the randomize-all button, with the three draws in the
    order [forEach] makes them. *)
Definition onRandomAllClick (x0 x1 x2 : Q) (s : State) : State :=
  let each (i : index) (x : Q) (s : State) : State :=
    let randomValue := randomValue x in
    let s := set_range s i randomValue in
    set_rangeValue s i (Js.toString 10 randomValue) in
  let s := each I2 x2 (each I1 x1 (each I0 x0 s)) in
  let s := with_hexError s false in
  updateColors s.

(** 4. [click] on the copy button: the text of the field goes to the
    clipboard; the promise settles in a later event. *)
Definition onCopyClick (s : State) : State * list Effect :=
  let hexValue := hexValue s in
  (with_pending s (S (pendingWrites s)) (timers s), [WriteText hexValue]).

(** The [then] callback of the clipboard write. *)
Definition onWriteResolved (s : State) : State :=
  let originalText := copyText s in
  let s := with_copy s CopiedText "#28a745" in
  with_pending s (Nat.pred (pendingWrites s)) (timers s ++ [originalText]).

(** The [catch] callback of the clipboard write. *)
Definition onWriteRejected (s : State) : State * list Effect :=
  (with_pending s (Nat.pred (pendingWrites s)) (timers s), [ConsoleError; Alert]).

(** The 800ms timer callback, with the [originalText] it captured. *)
Definition onTimer (originalText : buttonText) (s : State) : State :=
  with_copy s originalText "#007bff".

(** 5. [input] on the hex field.  The field already holds the typed text
    when the listener runs. *)
Definition onHexInput (s : State) : State :=
  let hex := Js.trim (hexValue s) in
  if negb (isValidHexChar hex) then with_hexError s true
  else
    let rgbObject := hexToRgb hex in
    match rgbObject with
    | Some (mkRgb r g b) =>
        let s := with_hexError s false in
        let s := set_range s I0 r in
        let s := set_range s I1 g in
        let s := set_range s I2 b in
        let s := set_rangeValue s I0 (Js.toString 10 r) in
        let s := set_rangeValue s I1 (Js.toString 10 g) in
        let s := set_rangeValue s I2 (Js.toString 10 b) in
        updateColors s
    | None =>
        if Js.length hex >? 7 then with_hexError s true
        else if (Js.length hex >=? 2) && (Js.length hex <? 7)
        then with_hexError s false
        else if Js.length hex =? 7 then with_hexError s true
        else with_hexError s false
    end.

(** *** Events and runs *)

Inductive Event : Type :=
| RangeInput (i : index) (position : Z)  (* the user moves slider [i] *)
| RandomClick (i : index) (x : Q)
| RandomAllClick (x0 x1 x2 : Q)
| CopyClick
| HexInput (text : string)               (* the user edits the field *)
| WriteResolved
| WriteRejected
| TimerFired.

(** One event: what the browser does to the page before the listener
    runs, then the listener.  A promise settles only when a write is
    pending and a timer fires only when one is set; otherwise nothing
    happens. *)
Definition step (s : State) (e : Event) : State * list Effect :=
  match e with
  | RangeInput i position =>
      (onRangeInput i (set_range s i (Num position)), [])
  | RandomClick i x => (onRandomClick i x s, [])
  | RandomAllClick x0 x1 x2 => (onRandomAllClick x0 x1 x2 s, [])
  | CopyClick => onCopyClick s
  | HexInput text => (onHexInput (with_hexValue s text), [])
  | WriteResolved =>
      match pendingWrites s with
      | O => (s, [])
      | S _ => (onWriteResolved s, [])
      end
  | WriteRejected =>
      match pendingWrites s with
      | O => (s, [])
      | S _ => onWriteRejected s
      end
  | TimerFired =>
      match timers s with
      | [] => (s, [])
      | originalText :: rest =>
          (onTimer originalText (with_pending s (pendingWrites s) rest), [])
      end
  end.

(** The page after loading: the markup fixes the sliders and the other
    properties, nothing is pending, and the script has run its top-level
    [updateColors()]. *)
Definition loaded (s : State) : Prop :=
  exists s0, 0 <= t0 (ranges s0) <= 255 /\ 0 <= t1 (ranges s0) <= 255
             /\ 0 <= t2 (ranges s0) <= 255 /\ copyText s0 = MarkupText
             /\ pendingWrites s0 = O /\ timers s0 = []
             /\ s = updateColors s0.

Fixpoint run (s : State) (es : list Event) : State :=
  match es with
  | [] => s
  | e :: es' => run (fst (step s e)) es'
  end.

Definition reachable (s : State) : Prop :=
  exists s0 es, loaded s0 /\ s = run s0 es.

(* ================================================================= *)
(** ** Channels and sample pages *)

Definition channels (s : State) : Z * Z * Z :=
  (t0 (ranges s), t1 (ranges s), t2 (ranges s)).

Definition in_range (v : Z) : Prop := 0 <= v <= 255.

Definition sample (r g b : Z) : State :=
  mkState (mkTriple r g b) (mkTriple "" "" "") "" false "" "" MarkupText "" 0 [].

Definition num_eqb (a b : num) : bool :=
  match a, b with
  | NaN, NaN => true
  | Num x, Num y => x =? y
  | _, _ => false
  end.

(* ================================================================= *)
(** ** The hex notation in the words of the specification

    These definitions do not come from the script: they say what a hex
    code is and what it denotes, and the script is compared with them. *)

Module Spec.

Definition lowerDigits : string := "0123456789abcdef".
Definition upperDigits : string := "0123456789ABCDEF".

Definition nthChar (digits : string) (d : Z) : ascii :=
  match String.get (Z.to_nat d) digits with
  | Some c => c
  | None => "0"%char
  end.

Fixpoint indexOf (c : ascii) (digits : string) : option Z :=
  match digits with
  | EmptyString => None
  | String d rest =>
      if Ascii.eqb c d then Some 0
      else match indexOf c rest with
           | Some k => Some (k + 1)
           | None => None
           end
  end.

(** A hexadecimal digit, of either case, and its value. *)
Definition digitOf (c : ascii) : option Z :=
  match indexOf c lowerDigits with
  | Some d => Some d
  | None => indexOf c upperDigits
  end.

Definition isHexDigit (c : ascii) : bool :=
  match digitOf c with Some _ => true | None => false end.

Definition value (c : ascii) : Z :=
  match digitOf c with Some d => d | None => 0 end.

Fixpoint all (p : ascii -> bool) (s : string) : bool :=
  match s with
  | EmptyString => true
  | String c s' => p c && all p s'
  end.

(** The character set [#0-9a-fA-F]. *)
Definition inHexSet (c : ascii) : bool := Ascii.eqb c "#" || isHexDigit c.

(** One channel as two digits, zero-padded. *)
Definition twoDigits (digits : string) (c : Z) : string :=
  String (nthChar digits (c / 16)) (String (nthChar digits (c mod 16)) EmptyString).

(** The canonical encoding: [#], then two upper-case digits a channel. *)
Definition canonicalHex (r g b : Z) : string :=
  String "#" (twoDigits upperDigits r ++ twoDigits upperDigits g
              ++ twoDigits upperDigits b).

(** The optional leading [#]. *)
Definition stripHash (s : string) : string :=
  match s with
  | String c body => if Ascii.eqb c "#" then body else s
  | EmptyString => s
  end.

Definition decode6 (body : string) : option (Z * Z * Z) :=
  match body with
  | String a (String b (String c (String d (String e (String f EmptyString))))) =>
      if all isHexDigit body
      then Some (16 * value a + value b, 16 * value c + value d,
                 16 * value e + value f)
      else None
  | _ => None
  end.

(** A 6-digit code denotes its three pairs; a 3-digit code denotes what
    the 6-digit code with every digit doubled denotes. *)
Definition decode (s : string) : option (Z * Z * Z) :=
  match stripHash s with
  | String a (String b (String c EmptyString)) =>
      decode6 (String a (String a (String b (String b (String c (String c EmptyString))))))
  | body => decode6 body
  end.

End Spec.

Definition rgbOf (d : option (Z * Z * Z)) : option rgb :=
  match d with
  | Some (x, y, z) => Some (mkRgb (Num x) (Num y) (Num z))
  | None => None
  end.

(** The second half of [hexToRgb]: the 6-digit pattern and the three
    [parseInt] calls. *)
Definition readFull (hex : string) : option rgb :=
  match exec true fullRegex hex with
  | None => None
  | Some result =>
      Some {| r := Js.parseInt (nth 0 result "") (Some 16);
              g := Js.parseInt (nth 1 result "") (Some 16);
              b := Js.parseInt (nth 2 result "") (Some 16) |}
  end.

Definition digits_ok (digits : string) (c : Z) : bool :=
  let h := Spec.nthChar digits (c / 16) in
  let l := Spec.nthChar digits (c mod 16) in
  Spec.isHexDigit h && Spec.isHexDigit l
  && (16 * Spec.value h + Spec.value l =? c).

(* ================================================================= *)
(** ** Runs of the page: the invariant *)

(** The three channels are in range. *)
Definition wf (s : State) : Prop :=
  in_range (t0 (ranges s)) /\ in_range (t1 (ranges s)) /\ in_range (t2 (ranges s)).

(** The hex field shows the canonical code of the channels. *)
Definition synced (s : State) : Prop :=
  hexValue s = Spec.canonicalHex (t0 (ranges s)) (t1 (ranges s)) (t2 (ranges s)).

(** A typed text the listener accepts as a colour. *)
Definition accepted (text : string) : bool :=
  match Spec.decode (Js.trim text) with Some _ => true | None => false end.

(** The operations that set channels: a slider change, the two kinds of
    randomize, and an accepted hex entry. *)
Definition mutating (e : Event) : bool :=
  match e with
  | RangeInput _ _ | RandomClick _ _ | RandomAllClick _ _ _ => true
  | HexInput text => accepted text
  | _ => false
  end.

(** Whether the field holds a text the user typed and the listener did not
    accept (mid-edit), after one event and after a list of events. *)
Definition edits (e : Event) (m : bool) : bool :=
  match e with
  | HexInput text => negb (accepted text)
  | RangeInput _ _ | RandomClick _ _ | RandomAllClick _ _ _ => false
  | _ => m
  end.

Fixpoint midEdit (es : list Event) (m : bool) : bool :=
  match es with
  | [] => m
  | e :: es' => midEdit es' (edits e m)
  end.

(** The text the user typed into the field and the listener did not
    accept, while it is still there: after one event and after a list of
    events.  A slider change, a randomize operation and an accepted entry
    overwrite the field; the other events leave it. *)
Definition typed (e : Event) (t : option string) : option string :=
  match e with
  | HexInput text => if accepted text then None else Some text
  | RangeInput _ _ | RandomClick _ _ | RandomAllClick _ _ _ => None
  | _ => t
  end.

Fixpoint typedText (es : list Event) (t : option string) : option string :=
  match es with
  | [] => t
  | e :: es' => typedText es' (typed e t)
  end.

(** [midEdit] and [typedText] tell the same story. *)
Definition coupled (m : bool) (t : option string) : Prop :=
  match t with
  | Some text => m = true /\ accepted text = false
  | None => m = false
  end.

(** The field holds the typed text for as long as [typedText] says so. *)
Definition holds (t : option string) (s : State) : Prop :=
  forall text, t = Some text -> hexValue s = text.

Ltac page :=
  cbn [ranges rangeValues hexValue hexError backgroundColor titleColor
       copyText copyColor pendingWrites timers
       updateColors with_ranges with_rangeValues with_hexValue with_hexError
       with_backgroundColor with_titleColor with_copy with_pending
       set_range set_rangeValue tget tset t0 t1 t2 fst snd channels].

(* ================================================================= *)
(** ** The luminance rule in the words of the specification

    The ITU-R BT.709 weights 0.2126, 0.7152 and 0.0722 and the threshold
    140, on binary64 numbers and on exact rationals.  These definitions
    do not come from the script; [updateColors] is compared with them. *)

Definition bt709 (r g b : Z) : float :=
  (of_uint63 (Uint63.of_Z r) * 0.2126 + of_uint63 (Uint63.of_Z g) * 0.7152
   + of_uint63 (Uint63.of_Z b) * 0.0722)%float.

Definition bt709_exact (r g b : Z) : Q :=
  (inject_Z r * (2126 # 10000) + inject_Z g * (7152 # 10000)
   + inject_Z b * (722 # 10000))%Q.

(** The weighted sum times 10000, as an integer. *)
Definition bt709_scaled (r g b : Z) : Z := 2126 * r + 7152 * g + 722 * b.

Definition channelValues : list Z := map Z.of_nat (seq 0 256).

(** The binary64 comparison against the exact one, on all 256^3 colours.
    The exact sums, all below 2^63, are computed on 63-bit integers. *)
Definition blueTerms : list (float * int) :=
  map (fun b => ((of_uint63 (Uint63.of_Z b) * 0.0722)%float,
                 Uint63.of_Z (722 * b)))
      channelValues.

Definition compareBlue (sg : float) (eg : int) (p : float * int) : bool :=
  Bool.eqb (140 <? sg + fst p)%float (1400000 <? eg + snd p)%uint63.

Definition compareGreen (blue : list (float * int)) (r g : Z) : bool :=
  forallb (compareBlue (of_uint63 (Uint63.of_Z r) * 0.2126
                        + of_uint63 (Uint63.of_Z g) * 0.7152)%float
                       (Uint63.of_Z (2126 * r + 7152 * g)))
          blue.

Definition compareRed (blue : list (float * int)) (r : Z) : bool :=
  forallb (compareGreen blue r) channelValues.

Definition compareAll : bool := forallb (compareRed blueTerms) channelValues.

Definition darkLabel : string := "#333".
Definition lightLabel : string := "#FFF".

(* ================================================================= *)
(** ** Further notions: draws, read-outs, timers, normal forms *)

(** A draw of [Math.random()]: a number in [0,1). *)
Definition validDraw (x : Q) : Prop := (0 <= x)%Q /\ (x < 1)%Q.

Definition validEvent (e : Event) : Prop :=
  match e with
  | RandomClick _ x => validDraw x
  | RandomAllClick x0 x1 x2 => validDraw x0 /\ validDraw x1 /\ validDraw x2
  | _ => True
  end.

(** Every read-out shows the integer its slider holds. *)
Definition readoutsFollow (s : State) : Prop :=
  rangeValues s = mkTriple (slider_value (t0 (ranges s)))
                           (slider_value (t1 (ranges s)))
                           (slider_value (t2 (ranges s))).

(** All pending timers fire, oldest first. *)
Definition fireAll (s : State) : State :=
  run s (repeat TimerFired (List.length (timers s))).

(** The 6-digit body a hex code stands for: the leading [#] dropped and
    the digits of a 3-digit code doubled. *)
Definition expandCode (s : string) : string :=
  match Spec.stripHash s with
  | String a (String b (String c EmptyString)) =>
      String a (String a (String b (String b (String c (String c EmptyString)))))
  | body => body
  end.

(** The error flag the hex field shows for a typed text, as the
    validation table of the specification gives it. *)
Definition flagOf (text : string) : bool :=
  let t := Js.trim text in
  if negb (Spec.all Spec.inHexSet t) then true
  else if accepted text then false
  else if Js.length t >? 7 then true
  else if (2 <=? Js.length t) && (Js.length t <? 7) then false
  else if Js.length t =? 7 then true
  else false.

(** The background and the title colour show the colour of the sliders. *)
Definition shown (s : State) : Prop :=
  let r := t0 (ranges s) in
  let g := t1 (ranges s) in
  let b := t2 (ranges s) in
  backgroundColor s
  = "rgb(" ++ slider_value r ++ ", " ++ slider_value g ++ ", "
    ++ slider_value b ++ ")"
  /\ titleColor s
     = if (140 <? luminance (Num r) (Num g) (Num b))%float
       then "#333" else "#FFF".

(* ================================================================= *)
(** ** Luminance and the title colour *)

Section FloatOrder.

(** On the specification floats, [x <= y] excludes [y < x]. *)
Lemma SFleb_not_SFltb (x y : spec_float) :
  SFleb x y = true -> SFltb y x = false.
Proof.
  unfold SFleb, SFltb.
  destruct x as [sx| sx | |sx mx ex], y as [sy|sy| |sy my ey]; cbn;
    try destruct sx; try destruct sy; cbn; try congruence.
  - rewrite (Z.compare_antisym ex ey).
    destruct (ex ?= ey)%Z; cbn; try congruence.
    change (Pos.compare_cont Eq my mx) with (Pos.compare my mx).
    change (Pos.compare_cont Eq mx my) with (Pos.compare mx my).
    rewrite (Pos.compare_antisym mx my).
    destruct (mx ?= my)%positive; cbn; congruence.
  - rewrite (Z.compare_antisym ex ey).
    destruct (ex ?= ey)%Z; cbn; try congruence.
    change (Pos.compare_cont Eq my mx) with (Pos.compare my mx).
    change (Pos.compare_cont Eq mx my) with (Pos.compare mx my).
    rewrite (Pos.compare_antisym mx my).
    destruct (mx ?= my)%positive; cbn; congruence.
Qed.

Lemma leb_not_ltb (x y : float) :
  (x <=? y)%float = true -> (y <? x)%float = false.
Proof.
  rewrite leb_spec, ltb_spec. apply SFleb_not_SFltb.
Qed.

End FloatOrder.

(* ================================================================= *)
(** ** Checking a property on every code unit and every channel value *)

Lemma allChars_complete (c : ascii) : In c Js.allChars.
Proof.
  unfold Js.allChars.
  rewrite <- (ascii_nat_embedding c).
  apply in_map, in_seq.
  pose proof (nat_ascii_bounded c). lia.
Qed.

Lemma forall_char (P : ascii -> bool) :
  forallb P Js.allChars = true -> forall c, P c = true.
Proof.
  intros H c. rewrite forallb_forall in H. apply H, allChars_complete.
Qed.

Lemma forall_below (P : Z -> bool) (n : nat) :
  forallb (fun k => P (Z.of_nat k)) (seq 0 n) = true ->
  forall z, 0 <= z < Z.of_nat n -> P z = true.
Proof.
  intros H z Hz. rewrite forallb_forall in H.
  rewrite <- (Z2Nat.id z) by lia.
  apply H, in_seq. lia.
Qed.

Lemma forall_channel (P : Z -> bool) :
  forallb (fun k => P (Z.of_nat k)) (seq 0 256) = true ->
  forall z, in_range z -> P z = true.
Proof.
  intros H z Hz. apply (forall_below P 256 H). unfold in_range in Hz. lia.
Qed.

Lemma num_eqb_eq (a b : num) : num_eqb a b = true -> a = b.
Proof.
  destruct a, b; cbn; try congruence.
  intros H. apply Z.eqb_eq in H. congruence.
Qed.

(** Reading a slider back: [parseInt(range.value)] is the held integer. *)
Lemma slider_roundtrip (v : Z) :
  in_range v -> Js.parseInt (slider_value v) None = Num v.
Proof.
  intros Hv. apply num_eqb_eq.
  revert v Hv.
  apply (forall_channel (fun v => num_eqb (Js.parseInt (slider_value v) None) (Num v))).
  vm_compute. reflexivity.
Qed.

Lemma slider_set_in_range (n : num) : in_range (slider_set n).
Proof. unfold in_range, slider_set. destruct n; lia. Qed.

Lemma slider_set_id (v : Z) : in_range v -> slider_set (Num v) = v.
Proof. unfold in_range, slider_set. lia. Qed.

Lemma titleColor_updateColors (s : State) :
  titleColor (updateColors s) =
  if (140 <? luminance (Js.parseInt (slider_value (t0 (ranges s))) None)
                       (Js.parseInt (slider_value (t1 (ranges s))) None)
                       (Js.parseInt (slider_value (t2 (ranges s))) None))%float
  then "#333" else "#FFF".
Proof. reflexivity. Qed.

Lemma luminance_bt709 (r g b : Z) :
  in_range r -> in_range g -> in_range b ->
  luminance (Num r) (Num g) (Num b) = bt709 r g b.
Proof.
  unfold in_range, luminance, bt709, toFloat. intros Hr Hg Hb.
  replace (r <? 0) with false by lia.
  replace (g <? 0) with false by lia.
  replace (b <? 0) with false by lia.
  reflexivity.
Qed.

Lemma in_channelValues (z : Z) : in_range z -> In z channelValues.
Proof.
  unfold in_range, channelValues. intros H.
  rewrite <- (Z2Nat.id z) by lia. apply in_map, in_seq. lia.
Qed.

Lemma compareAll_true :
  forallb (compareRed blueTerms) channelValues = true.
Proof. vm_compute. reflexivity. Qed.

(** The exact sums on 63-bit integers are the sums on integers. *)
Lemma scaled_uint63 (r g b : Z) :
  in_range r -> in_range g -> in_range b ->
  (1400000 <? Uint63.of_Z (2126 * r + 7152 * g) + Uint63.of_Z (722 * b))%uint63
  = (1400000 <? bt709_scaled r g b).
Proof.
  unfold in_range, bt709_scaled. intros Hr Hg Hb.
  assert (HwB : wB = 9223372036854775808) by reflexivity.
  apply eq_true_iff_eq.
  rewrite Uint63Axioms.ltb_spec, Z.ltb_lt, Uint63Axioms.add_spec, !of_Z_spec.
  rewrite HwB.
  rewrite (Z.mod_small (2126 * r + 7152 * g)) by lia.
  rewrite (Z.mod_small (722 * b)) by lia.
  rewrite Z.mod_small by lia.
  reflexivity.
Qed.

(** On every colour, the binary64 comparison of the weighted sum with 140
    gives what the exact comparison gives. *)
Lemma bt709_exact_comparison (r g b : Z) :
  in_range r -> in_range g -> in_range b ->
  (140 <? bt709 r g b)%float = (1400000 <? bt709_scaled r g b).
Proof.
  intros Hr Hg Hb. rewrite <- scaled_uint63 by assumption.
  apply eqb_prop.
  pose proof (proj1 (forallb_forall (compareRed blueTerms) channelValues)
                compareAll_true r (in_channelValues r Hr)) as H1.
  pose proof (proj1 (forallb_forall (compareGreen blueTerms r) channelValues)
                H1 g (in_channelValues g Hg)) as H2.
  refine (proj1 (forallb_forall _ blueTerms) H2
            ((of_uint63 (Uint63.of_Z b) * 0.0722)%float, Uint63.of_Z (722 * b)) _).
  apply (in_map (fun b => ((of_uint63 (Uint63.of_Z b) * 0.0722)%float,
                           Uint63.of_Z (722 * b)))).
  now apply in_channelValues.
Qed.

Lemma bt709_exact_scaled (r g b : Z) :
  ((140 < bt709_exact r g b)%Q <-> 1400000 < bt709_scaled r g b)
  /\ ((bt709_exact r g b <= 140)%Q <-> bt709_scaled r g b <= 1400000).
Proof.
  unfold bt709_exact, bt709_scaled, Qlt, Qle.
  cbn [Qnum Qden Qplus Qmult inject_Z Pos.mul].
  split; split; lia.
Qed.

Lemma titleColor_bt709 (s : State) (r g b : Z) :
  channels s = (r, g, b) -> in_range r -> in_range g -> in_range b ->
  titleColor (updateColors s)
  = if (140 <? bt709 r g b)%float then darkLabel else lightLabel.
Proof.
  intros Hc Hr Hg Hb. unfold channels in Hc. injection Hc as H0 H1 H2.
  rewrite titleColor_updateColors, H0, H1, H2.
  rewrite !slider_roundtrip by assumption.
  now rewrite luminance_bt709.
Qed.

(** C8. For channel values r, g, b in [0,255] the title colour follows the
    strict comparison [r*0.2126 + g*0.7152 + b*0.0722 > 140]: a weighted
    sum above 140 gives the dark colour "#333", a weighted sum less than
    or equal to 140 (exactly 140 included) gives the light colour "#FFF".
    This holds for the weighted sum as an exact number and as the
    binary64 number the script computes.  White gives the dark colour,
    black the light one, and rgb(140,140,140), whose weighted sum is
    exactly 140, the light one. *)
Theorem C8_title_color_by_luminance :
  (forall s r g b,
      channels s = (r, g, b) -> in_range r -> in_range g -> in_range b ->
      (titleColor (updateColors s) = "#333" <-> (140 < bt709_exact r g b)%Q)
      /\ (titleColor (updateColors s) = "#FFF" <-> (bt709_exact r g b <= 140)%Q)
      /\ ((140 <? bt709 r g b)%float = true
          -> titleColor (updateColors s) = "#333")
      /\ ((bt709 r g b <=? 140)%float = true
          -> titleColor (updateColors s) = "#FFF"))
  /\ (forall s, channels s = (255, 255, 255) ->
                titleColor (updateColors s) = "#333")
  /\ (forall s, channels s = (0, 0, 0) ->
                titleColor (updateColors s) = "#FFF")
  /\ (bt709_exact 140 140 140 == 140)%Q
  /\ (bt709 140 140 140 =? 140)%float = true
  /\ (forall s, channels s = (140, 140, 140) ->
                titleColor (updateColors s) = "#FFF").
Proof.
  split; [| repeat split].
  - intros s r g b Hc Hr Hg Hb.
    pose proof (titleColor_bt709 s r g b Hc Hr Hg Hb) as Ht.
    pose proof (bt709_exact_comparison r g b Hr Hg Hb) as Hcmp.
    destruct (bt709_exact_scaled r g b) as (Hgt & Hle).
    rewrite Hgt, Hle, Ht. unfold darkLabel, lightLabel.
    destruct (1400000 <? bt709_scaled r g b) eqn:E; rewrite Hcmp.
    + apply Z.ltb_lt in E.
      split; [| split; [| split]]; try tauto.
      * split; [discriminate | lia].
      * intros Hl. apply leb_not_ltb in Hl. congruence.
    + apply Z.ltb_ge in E.
      split; [| split; [| split]]; try tauto.
      * split; [discriminate | lia].
      * discriminate.
  - intros s Hc. rewrite (titleColor_bt709 s _ _ _ Hc); unfold in_range; try lia.
    reflexivity.
  - intros s Hc. rewrite (titleColor_bt709 s _ _ _ Hc); unfold in_range; try lia.
    reflexivity.
  - intros s Hc. rewrite (titleColor_bt709 s _ _ _ Hc); unfold in_range; try lia.
    reflexivity.
Qed.

Lemma C8_title_color_by_luminance_witness :
  (titleColor (updateColors (sample 200 100 50)) = "#333"
   <-> (140 < bt709_exact 200 100 50)%Q)
  /\ (titleColor (updateColors (sample 200 100 50)) = "#FFF"
      <-> (bt709_exact 200 100 50 <= 140)%Q)
  /\ ((140 <? bt709 200 100 50)%float = true
      -> titleColor (updateColors (sample 200 100 50)) = "#333")
  /\ ((bt709 200 100 50 <=? 140)%float = true
      -> titleColor (updateColors (sample 200 100 50)) = "#FFF").
Proof.
  apply (proj1 C8_title_color_by_luminance (sample 200 100 50) 200 100 50);
    [reflexivity | unfold in_range; lia ..].
Defined.

(* ================================================================= *)
(** ** The regular expressions against the specification *)

Section RegexFacts.

Lemma hexClass_ignoreCase (c : ascii) :
  classMatches true hexClass c = Spec.isHexDigit c.
Proof.
  apply eqb_prop. revert c. apply forall_char.
  vm_compute. reflexivity.
Qed.

Lemma hash_ignoreCase (c : ascii) :
  charMatches true "#" c = Ascii.eqb c "#".
Proof.
  apply eqb_prop. revert c. apply forall_char.
  vm_compute. reflexivity.
Qed.

Lemma validCharClass_inHexSet (c : ascii) :
  validCharClass c = Spec.inHexSet c.
Proof.
  apply eqb_prop. revert c. apply forall_char.
  vm_compute. reflexivity.
Qed.

Lemma hexDigit_not_hash (c : ascii) :
  Spec.isHexDigit c = true -> Ascii.eqb c "#" = false.
Proof.
  intros H. destruct (Ascii.eqb c "#") eqn:E; [| reflexivity].
  apply Ascii.eqb_eq in E. subst c. discriminate H.
Qed.

Lemma value_bounds (c : ascii) : 0 <= Spec.value c <= 15.
Proof.
  assert (H : (0 <=? Spec.value c) && (Spec.value c <=? 15) = true).
  { revert c. apply forall_char. vm_compute. reflexivity. }
  apply andb_true_iff in H. lia.
Qed.

(** [parseInt] of two hex digits, radix 16. *)
Lemma parseInt_two_digits (h l : ascii) :
  Spec.isHexDigit h = true -> Spec.isHexDigit l = true ->
  Js.parseInt (String h (String l EmptyString)) (Some 16)
  = Num (16 * Spec.value h + Spec.value l).
Proof.
  intros Hh Hl. apply num_eqb_eq.
  assert (H : forallb (fun l' =>
                implb (Spec.isHexDigit h && Spec.isHexDigit l')
                  (num_eqb (Js.parseInt (String h (String l' EmptyString)) (Some 16))
                           (Num (16 * Spec.value h + Spec.value l'))))
              Js.allChars = true).
  { revert h Hh. intros h _. revert h. apply forall_char.
    vm_compute. reflexivity. }
  rewrite forallb_forall in H. specialize (H l (allChars_complete l)).
  now rewrite Hh, Hl in H.
Qed.

(** The star of the character check reads the whole string. *)
Lemma exec_star (cls : ascii -> bool) (s : string) :
  exec false [Star cls] s = if Spec.all cls s then Some [] else None.
Proof.
  induction s as [| c s IH].
  - reflexivity.
  - cbn in *. destruct (cls c); cbn; [| reflexivity].
    rewrite IH. destruct (Spec.all cls s); reflexivity.
Qed.

Lemma all_ext (p q : ascii -> bool) (s : string) :
  (forall c, p c = q c) -> Spec.all p s = Spec.all q s.
Proof.
  intros H. induction s as [| c s IH]; cbn; [reflexivity |].
  now rewrite H, IH.
Qed.

Lemma isValidHexChar_spec (s : string) :
  isValidHexChar s = Spec.all Spec.inHexSet s.
Proof.
  unfold isValidHexChar, test. rewrite exec_star.
  rewrite (all_ext _ _ s validCharClass_inHexSet).
  destruct (Spec.all Spec.inHexSet s); reflexivity.
Qed.

End RegexFacts.

Section HexToRgbFacts.

Lemma exec_opt (ic : bool) (c c' : ascii) (re : regex) (t : string) :
  exec ic (Opt c :: re) (String c' t)
  = if charMatches ic c c'
    then match exec ic re t with
         | Some caps => Some caps
         | None => exec ic re (String c' t)
         end
    else exec ic re (String c' t).
Proof. reflexivity. Qed.

Lemma exec_hash (n : nat) (re : regex) (s : string) :
  exec true (Opt "#" :: Group (S n) hexClass :: re) s
  = exec true (Group (S n) hexClass :: re) (Spec.stripHash s).
Proof.
  destruct s as [| c t]; [reflexivity |].
  rewrite exec_opt, hash_ignoreCase. cbn [Spec.stripHash].
  destruct (Ascii.eqb c "#") eqn:E; [| reflexivity].
  apply Ascii.eqb_eq in E. subst c.
  assert (H : exec true (Group (S n) hexClass :: re) (String "#" t) = None).
  { cbn [exec takeClass]. now rewrite hexClass_ignoreCase. }
  rewrite H. now destruct (exec true (Group (S n) hexClass :: re) t).
Qed.

Ltac run_groups :=
  cbn [exec takeClass Spec.all];
  repeat (rewrite hexClass_ignoreCase;
          match goal with
          | |- context [Spec.isHexDigit ?c] => destruct (Spec.isHexDigit c)
          end;
          cbn [exec takeClass Spec.all andb]);
  try reflexivity.

Lemma exec_three (body : string) :
  exec true [Group 1 hexClass; Group 1 hexClass; Group 1 hexClass] body
  = match body with
    | String a (String b (String c EmptyString)) =>
        if Spec.all Spec.isHexDigit body
        then Some [String a EmptyString; String b EmptyString;
                   String c EmptyString]
        else None
    | _ => None
    end.
Proof.
  destruct body as [| a [| b [| c [| d t]]]]; run_groups.
Qed.

Lemma exec_six (body : string) :
  exec true [Group 2 hexClass; Group 2 hexClass; Group 2 hexClass] body
  = match body with
    | String a (String b (String c (String d (String e (String f EmptyString))))) =>
        if Spec.all Spec.isHexDigit body
        then Some [String a (String b EmptyString);
                   String c (String d EmptyString);
                   String e (String f EmptyString)]
        else None
    | _ => None
    end.
Proof.
  destruct body as [| a [| b [| c [| d [| e [| f [| x t]]]]]]]; run_groups.
Qed.

Lemma readFull_spec (hex : string) :
  readFull hex = rgbOf (Spec.decode6 (Spec.stripHash hex)).
Proof.
  unfold readFull, fullRegex. rewrite exec_hash, exec_six.
  destruct (Spec.stripHash hex) as [| a [| b [| c [| d [| e [| f [| x t]]]]]]];
    try reflexivity.
  unfold Spec.decode6.
  destruct (Spec.all Spec.isHexDigit _) eqn:H; [| reflexivity].
  cbn [Spec.all] in H. repeat rewrite andb_true_iff in H.
  destruct H as (Ha & Hb & Hc & Hd & He & Hf & _).
  cbn [nth rgbOf].
  now rewrite !parseInt_two_digits.
Qed.

(** [hexToRgb] decodes exactly the hex codes of the specification. *)
Lemma hexToRgb_spec (hex : string) :
  hexToRgb hex = rgbOf (Spec.decode hex).
Proof.
  change (hexToRgb hex) with
    (readFull (replace true shorthandRegex
                 (fun caps =>
                    let r := nth 0 caps "" in
                    let g := nth 1 caps "" in
                    let b := nth 2 caps "" in
                    r ++ r ++ g ++ g ++ b ++ b) hex)).
  unfold replace, shorthandRegex. rewrite exec_hash, exec_three.
  unfold Spec.decode.
  destruct (Spec.stripHash hex) as [| a [| b [| c [| d t]]]] eqn:Hbody;
    try (rewrite readFull_spec, Hbody; reflexivity).
  destruct (Spec.all Spec.isHexDigit (String a (String b (String c EmptyString))))
    eqn:H.
  - cbn [nth append]. rewrite readFull_spec.
    cbn [Spec.all] in H. repeat rewrite andb_true_iff in H.
    destruct H as (Ha & Hb & Hc & _).
    cbn [Spec.stripHash]. now rewrite (hexDigit_not_hash a Ha).
  - rewrite readFull_spec, Hbody. cbn [Spec.decode6 rgbOf].
    cbn [Spec.all] in *.
    destruct (Spec.isHexDigit a), (Spec.isHexDigit b), (Spec.isHexDigit c);
      cbn in *; congruence.
Qed.

End HexToRgbFacts.

(* ================================================================= *)
(** ** Encoding a colour *)

Section Encoding.

(** One channel: two lower-case digits, zero-padded. *)
Lemma toHex_channel (c : Z) :
  in_range c -> toHex (Num c) = Spec.twoDigits Spec.lowerDigits c.
Proof.
  intros Hc. apply String.eqb_eq. revert c Hc.
  apply (forall_channel
           (fun c => String.eqb (toHex (Num c)) (Spec.twoDigits Spec.lowerDigits c))).
  vm_compute. reflexivity.
Qed.

Lemma twoDigits_value (digits : string) (c : Z) :
  digits = Spec.lowerDigits \/ digits = Spec.upperDigits ->
  in_range c ->
  Spec.isHexDigit (Spec.nthChar digits (c / 16)) = true
  /\ Spec.isHexDigit (Spec.nthChar digits (c mod 16)) = true
  /\ 16 * Spec.value (Spec.nthChar digits (c / 16))
     + Spec.value (Spec.nthChar digits (c mod 16)) = c.
Proof.
  intros Hd Hc.
  assert (H : digits_ok digits c = true).
  { revert c Hc. apply forall_channel.
    destruct Hd as [-> | ->]; vm_compute; reflexivity. }
  unfold digits_ok in H. rewrite !andb_true_iff, Z.eqb_eq in H. tauto.
Qed.

Lemma toUpperCase_twoDigits (c : Z) :
  in_range c ->
  Js.toUpperCase (Spec.twoDigits Spec.lowerDigits c)
  = Spec.twoDigits Spec.upperDigits c.
Proof.
  intros Hc. apply String.eqb_eq. revert c Hc.
  apply (forall_channel
           (fun c => String.eqb (Js.toUpperCase (Spec.twoDigits Spec.lowerDigits c))
                                (Spec.twoDigits Spec.upperDigits c))).
  vm_compute. reflexivity.
Qed.

Lemma rgbToHex_channels (r g b : Z) :
  in_range r -> in_range g -> in_range b ->
  rgbToHex (Num r) (Num g) (Num b)
  = String "#" (Spec.twoDigits Spec.lowerDigits r
                ++ Spec.twoDigits Spec.lowerDigits g
                ++ Spec.twoDigits Spec.lowerDigits b).
Proof.
  intros Hr Hg Hb. unfold rgbToHex.
  now rewrite !toHex_channel.
Qed.

Lemma toUpperCase_rgbToHex (r g b : Z) :
  in_range r -> in_range g -> in_range b ->
  Js.toUpperCase (rgbToHex (Num r) (Num g) (Num b)) = Spec.canonicalHex r g b.
Proof.
  intros Hr Hg Hb. rewrite rgbToHex_channels by assumption.
  unfold Spec.canonicalHex.
  rewrite <- !toUpperCase_twoDigits by assumption.
  reflexivity.
Qed.

(** Decoding a code made of the two-digit forms of three channels. *)
Lemma decode_twoDigits (digits : string) (r g b : Z) :
  digits = Spec.lowerDigits \/ digits = Spec.upperDigits ->
  in_range r -> in_range g -> in_range b ->
  Spec.decode (String "#" (Spec.twoDigits digits r ++ Spec.twoDigits digits g
                           ++ Spec.twoDigits digits b))
  = Some (r, g, b).
Proof.
  intros Hd Hr Hg Hb.
  destruct (twoDigits_value digits r Hd Hr) as (Hr1 & Hr2 & Hr3).
  destruct (twoDigits_value digits g Hd Hg) as (Hg1 & Hg2 & Hg3).
  destruct (twoDigits_value digits b Hd Hb) as (Hb1 & Hb2 & Hb3).
  unfold Spec.twoDigits. cbn [append].
  match goal with
  | |- Spec.decode (String "#" ?body) = _ =>
      change (Spec.decode (String "#" body)) with (Spec.decode6 body)
  end.
  unfold Spec.decode6. cbn [Spec.all].
  rewrite Hr1, Hr2, Hg1, Hg2, Hb1, Hb2. cbn [andb].
  now rewrite Hr3, Hg3, Hb3.
Qed.

End Encoding.

(** C9. For integers r, g, b in [0,255], [rgbToHex(r,g,b)] is a leading
    [#] followed by exactly 6 hexadecimal characters: each channel gives
    exactly two hex digits, zero-padded. *)
Theorem C9_rgbToHex_shape (r g b : Z) :
  in_range r -> in_range g -> in_range b ->
  exists six,
    rgbToHex (Num r) (Num g) (Num b) = String "#" six
    /\ String.length six = 6%nat
    /\ Spec.all Spec.isHexDigit six = true
    /\ six = Spec.twoDigits Spec.lowerDigits r
             ++ Spec.twoDigits Spec.lowerDigits g
             ++ Spec.twoDigits Spec.lowerDigits b.
Proof.
  intros Hr Hg Hb.
  eexists. split; [apply rgbToHex_channels; assumption |].
  destruct (twoDigits_value _ r (or_introl eq_refl) Hr) as (Hr1 & Hr2 & _).
  destruct (twoDigits_value _ g (or_introl eq_refl) Hg) as (Hg1 & Hg2 & _).
  destruct (twoDigits_value _ b (or_introl eq_refl) Hb) as (Hb1 & Hb2 & _).
  unfold Spec.twoDigits. cbn [append String.length Spec.all].
  rewrite Hr1, Hr2, Hg1, Hg2, Hb1, Hb2.
  repeat split.
Qed.

Lemma C9_rgbToHex_shape_witness :
  exists six,
    rgbToHex (Num 255) (Num 0) (Num 10) = String "#" six
    /\ String.length six = 6%nat
    /\ Spec.all Spec.isHexDigit six = true
    /\ six = Spec.twoDigits Spec.lowerDigits 255
             ++ Spec.twoDigits Spec.lowerDigits 0
             ++ Spec.twoDigits Spec.lowerDigits 10.
Proof.
  apply (C9_rgbToHex_shape 255 0 10); unfold in_range; lia.
Defined.

(** C1. For integers r, g, b in [0,255], decoding the encoding gives the
    channels back: [hexToRgb(rgbToHex(r,g,b))] is [{r, g, b}]. *)
Theorem C1_hex_roundtrip (r g b : Z) :
  in_range r -> in_range g -> in_range b ->
  hexToRgb (rgbToHex (Num r) (Num g) (Num b))
  = Some {| r := Num r; g := Num g; b := Num b |}.
Proof.
  intros Hr Hg Hb.
  rewrite hexToRgb_spec, rgbToHex_channels by assumption.
  rewrite (decode_twoDigits _ r g b (or_introl eq_refl)) by assumption.
  reflexivity.
Qed.

Lemma C1_hex_roundtrip_witness :
  hexToRgb (rgbToHex (Num 255) (Num 0) (Num 170))
  = Some {| r := Num 255; g := Num 0; b := Num 170 |}.
Proof.
  apply (C1_hex_roundtrip 255 0 170); unfold in_range; lia.
Defined.

(* ================================================================= *)
(** ** Runs of the page *)

Section PageFacts.

Lemma ranges_updateColors (s : State) : ranges (updateColors s) = ranges s.
Proof. reflexivity. Qed.

Lemma hexError_updateColors (s : State) : hexError (updateColors s) = hexError s.
Proof. reflexivity. Qed.

Lemma hexValue_updateColors (s : State) :
  wf s -> synced (updateColors s).
Proof.
  intros (H0 & H1 & H2). unfold synced. rewrite ranges_updateColors.
  change (hexValue (updateColors s)) with
    (Js.toUpperCase
       (rgbToHex (Js.parseInt (slider_value (t0 (ranges s))) None)
                 (Js.parseInt (slider_value (t1 (ranges s))) None)
                 (Js.parseInt (slider_value (t2 (ranges s))) None))).
  rewrite !slider_roundtrip by assumption.
  now apply toUpperCase_rgbToHex.
Qed.

Lemma wf_tset (s : State) (i : index) (n : num) :
  wf s -> wf (set_range s i n).
Proof.
  intros (H0 & H1 & H2). pose proof (slider_set_in_range n).
  unfold wf. destruct i; page; auto.
Qed.

Lemma wf_ranges (s s' : State) : ranges s' = ranges s -> wf s -> wf s'.
Proof. unfold wf. now intros ->. Qed.

Lemma synced_same (s s' : State) :
  ranges s' = ranges s -> hexValue s' = hexValue s -> synced s -> synced s'.
Proof. unfold synced. now intros -> ->. Qed.

Lemma all_impl (p q : ascii -> bool) (s : string) :
  (forall c, p c = true -> q c = true) ->
  Spec.all p s = true -> Spec.all q s = true.
Proof.
  intros H. induction s as [| c s IH]; cbn; [reflexivity |].
  rewrite !andb_true_iff. intros (Hc & Hs). auto.
Qed.

Lemma decode6_some (body : string) (x y z : Z) :
  Spec.decode6 body = Some (x, y, z) ->
  Spec.all Spec.isHexDigit body = true
  /\ in_range x /\ in_range y /\ in_range z.
Proof.
  unfold Spec.decode6.
  destruct body as [| a [| b [| c [| d [| e [| f [| k t]]]]]]];
    try discriminate.
  destruct (Spec.all Spec.isHexDigit _); [| discriminate].
  pose (vx := 16 * Spec.value a + Spec.value b).
  pose (vy := 16 * Spec.value c + Spec.value d).
  pose (vz := 16 * Spec.value e + Spec.value f).
  fold vx vy vz. intros [= <- <- <-]. subst vx vy vz.
  pose proof (value_bounds a). pose proof (value_bounds b).
  pose proof (value_bounds c). pose proof (value_bounds d).
  pose proof (value_bounds e). pose proof (value_bounds f).
  unfold in_range. repeat split; lia.
Qed.

Lemma decode_some (s : string) (x y z : Z) :
  Spec.decode s = Some (x, y, z) ->
  Spec.all Spec.inHexSet s = true
  /\ in_range x /\ in_range y /\ in_range z.
Proof.
  intros H.
  assert (Hbody : Spec.all Spec.isHexDigit (Spec.stripHash s) = true
                  /\ in_range x /\ in_range y /\ in_range z).
  { unfold Spec.decode in H.
    destruct (Spec.stripHash s) as [| a [| b [| c [| d t]]]];
      try (now apply decode6_some in H).
    apply decode6_some in H. destruct H as (H & Hr).
    split; [| exact Hr].
    cbn [Spec.all] in *.
    destruct (Spec.isHexDigit a), (Spec.isHexDigit b), (Spec.isHexDigit c);
      cbn in *; congruence. }
  destruct Hbody as (Hall & Hr). split; [| exact Hr].
  assert (Hset : forall t, Spec.all Spec.isHexDigit t = true ->
                           Spec.all Spec.inHexSet t = true).
  { intros t. apply all_impl. intros c Hc. unfold Spec.inHexSet.
    rewrite Hc. apply orb_true_r. }
  destruct s as [| c t]; [reflexivity |].
  cbn [Spec.stripHash] in Hall. cbn [Spec.all].
  unfold Spec.inHexSet at 1.
  destruct (Ascii.eqb c "#"); cbn [orb andb]; [now apply Hset |].
  cbn [Spec.all] in Hall. apply andb_true_iff in Hall.
  destruct Hall as (Hc & Ht). rewrite Hc. cbn. now apply Hset.
Qed.

(** The listener of the hex field on a text it accepts. *)
Lemma onHexInput_accepted (s : State) (x y z : Z) :
  Spec.decode (Js.trim (hexValue s)) = Some (x, y, z) ->
  onHexInput s =
  updateColors
    (set_rangeValue
       (set_rangeValue
          (set_rangeValue
             (set_range (set_range (set_range (with_hexError s false) I0 (Num x))
                                   I1 (Num y)) I2 (Num z))
             I0 (Js.toString 10 (Num x)))
          I1 (Js.toString 10 (Num y)))
       I2 (Js.toString 10 (Num z))).
Proof.
  intros H. unfold onHexInput.
  destruct (decode_some _ _ _ _ H) as (Hv & _).
  rewrite isValidHexChar_spec, Hv, hexToRgb_spec, H.
  reflexivity.
Qed.

(** The listener of the hex field on a text it does not accept: only
    the error flag is written. *)
Lemma onHexInput_rejected (s : State) :
  Spec.decode (Js.trim (hexValue s)) = None ->
  onHexInput s =
  with_hexError s
    (let hex := Js.trim (hexValue s) in
     if negb (Spec.all Spec.inHexSet hex) then true
     else if Js.length hex >? 7 then true
     else if (Js.length hex >=? 2) && (Js.length hex <? 7) then false
     else if Js.length hex =? 7 then true
     else false).
Proof.
  intros H. unfold onHexInput.
  rewrite isValidHexChar_spec, hexToRgb_spec, H. cbn [rgbOf].
  destruct (negb _); [reflexivity |].
  destruct (_ >? _); [reflexivity |].
  destruct (_ && _); [reflexivity |].
  destruct (_ =? _); reflexivity.
Qed.

Lemma step_wf (s : State) (e : Event) : wf s -> wf (fst (step s e)).
Proof.
  intros Hs. destruct e as [i p | i x | x0 x1 x2 | | text | | |]; cbn [step fst].
  - apply (wf_ranges (set_range s i (Num p))); [reflexivity |].
    now apply wf_tset.
  - apply (wf_ranges (set_range s i (randomValue x))); [reflexivity |].
    now apply wf_tset.
  - apply (wf_ranges (set_range (set_range (set_range s I0 (randomValue x0))
                                           I1 (randomValue x1))
                                I2 (randomValue x2))); [reflexivity |].
    now repeat apply wf_tset.
  - exact Hs.
  - destruct (Spec.decode (Js.trim text)) as [[[x y] z] |] eqn:H.
    + rewrite (onHexInput_accepted _ x y z) by exact H.
      apply (wf_ranges (set_range (set_range (set_range s I0 (Num x))
                                             I1 (Num y)) I2 (Num z)));
        [reflexivity |].
      now repeat apply wf_tset.
    + rewrite onHexInput_rejected by exact H. exact Hs.
  - destruct (pendingWrites s); exact Hs.
  - destruct (pendingWrites s); exact Hs.
  - destruct (timers s); exact Hs.
Qed.

Lemma step_mutating (s : State) (e : Event) :
  wf s -> mutating e = true -> synced (fst (step s e)).
Proof.
  intros Hs He. pose proof (step_wf s e Hs) as Hwf.
  destruct e as [i p | i x | x0 x1 x2 | | text | | |];
    cbn [mutating] in He; try discriminate; cbn [step fst] in *.
  - apply hexValue_updateColors.
    apply (wf_ranges _ _ (eq_sym (ranges_updateColors _))). exact Hwf.
  - apply hexValue_updateColors.
    apply (wf_ranges _ _ (eq_sym (ranges_updateColors _))). exact Hwf.
  - apply hexValue_updateColors.
    apply (wf_ranges _ _ (eq_sym (ranges_updateColors _))). exact Hwf.
  - unfold accepted in He.
    destruct (Spec.decode (Js.trim text)) as [[[x y] z] |] eqn:H;
      [| discriminate].
    rewrite (onHexInput_accepted _ x y z) in * by exact H.
    apply hexValue_updateColors.
    apply (wf_ranges _ _ (eq_sym (ranges_updateColors _))). exact Hwf.
Qed.

Lemma step_edits (s : State) (e : Event) (m : bool) :
  wf s -> (m = false -> synced s) ->
  edits e m = false -> synced (fst (step s e)).
Proof.
  intros Hs Hm He.
  destruct e as [i p | i x | x0 x1 x2 | | text | | |];
    try (apply step_mutating; [exact Hs | reflexivity]).
  - now apply Hm.
  - apply step_mutating; [exact Hs |].
    cbn in *. now destruct (accepted text).
  - cbn [step]. destruct (pendingWrites s); now apply Hm.
  - cbn [step]. destruct (pendingWrites s); now apply Hm.
  - cbn [step]. destruct (timers s); now apply Hm.
Qed.

Lemma run_invariant (es : list Event) :
  forall (s : State) (m : bool),
    wf s -> (m = false -> synced s) ->
    wf (run s es) /\ (midEdit es m = false -> synced (run s es)).
Proof.
  induction es as [| e es IH]; intros s m Hs Hm.
  - split; assumption.
  - cbn [run midEdit]. apply IH.
    + now apply step_wf.
    + now apply (step_edits s e m).
Qed.

Lemma loaded_invariant (s : State) : loaded s -> wf s /\ synced s.
Proof.
  intros (s0 & H0 & H1 & H2 & _ & _ & _ & ->).
  assert (Hwf : wf s0) by (unfold wf, in_range; auto).
  split; [exact Hwf | now apply hexValue_updateColors].
Qed.

End PageFacts.

(* ================================================================= *)
(** ** The hex field *)

Section HexFieldFacts.

Lemma all_forall (p : ascii -> bool) (s : string) :
  Spec.all p s = true <->
  (forall c, In c (list_ascii_of_string s) -> p c = true).
Proof.
  induction s as [| a s IH]; cbn.
  - split; [intros _ c [] | reflexivity].
  - rewrite andb_true_iff, IH. split.
    + intros (Ha & Hs) c [<- | Hc]; auto.
    + intros H. split; [apply H; now left | intros c Hc; apply H; now right].
Qed.

Lemma decode6_length (body : string) :
  Spec.decode6 body <> None -> String.length body = 6%nat.
Proof.
  unfold Spec.decode6.
  destruct body as [| a [| b [| c [| d [| e [| f [| k t]]]]]]];
    try congruence.
  reflexivity.
Qed.

Lemma stripHash_length (s : string) :
  (String.length s <= S (String.length (Spec.stripHash s)))%nat.
Proof.
  destruct s as [| c t]; cbn; [lia |].
  destruct (Ascii.eqb c "#"); cbn; lia.
Qed.

(** A hex code has at most 7 characters. *)
Lemma decode_length (s : string) :
  Spec.decode s <> None -> Js.length s <= 7.
Proof.
  intros H. pose proof (stripHash_length s) as Hl.
  unfold Spec.decode in H. unfold Js.length.
  destruct (Spec.stripHash s) as [| a [| b [| c [| d t]]]] eqn:Hbody;
    apply decode6_length in H; cbn in *; lia.
Qed.

Lemma decode_invalid (s : string) :
  Spec.all Spec.inHexSet s = false -> Spec.decode s = None.
Proof.
  intros H. destruct (Spec.decode s) as [[[x y] z] |] eqn:E; [| reflexivity].
  apply decode_some in E. destruct E as (E & _). congruence.
Qed.

(** A text that is not accepted leaves everything but the error flag. *)
Lemma rejected_channels (s : State) (text : string) :
  Spec.decode (Js.trim text) = None ->
  channels (fst (step s (HexInput text))) = channels s.
Proof.
  intros H. cbn [step fst].
  rewrite onHexInput_rejected by exact H. reflexivity.
Qed.

Lemma rejected_error (s : State) (text : string) :
  Spec.decode (Js.trim text) = None ->
  hexError (fst (step s (HexInput text))) =
  (let hex := Js.trim text in
   if negb (Spec.all Spec.inHexSet hex) then true
   else if Js.length hex >? 7 then true
   else if (Js.length hex >=? 2) && (Js.length hex <? 7) then false
   else if Js.length hex =? 7 then true
   else false).
Proof.
  intros H. cbn [step fst].
  rewrite onHexInput_rejected by exact H. reflexivity.
Qed.

Lemma accepted_result (s : State) (text : string) (x y z : Z) :
  Spec.decode (Js.trim text) = Some (x, y, z) ->
  channels (fst (step s (HexInput text))) = (x, y, z)
  /\ hexError (fst (step s (HexInput text))) = false.
Proof.
  intros H. cbn [step fst].
  rewrite (onHexInput_accepted _ x y z) by exact H.
  destruct (decode_some _ _ _ _ H) as (_ & Hx & Hy & Hz).
  split; [| reflexivity].
  unfold channels. rewrite ranges_updateColors. page.
  now rewrite !slider_set_id.
Qed.

End HexFieldFacts.

(** C3. For every typed text that, trimmed, is a 3-digit or 6-digit hex
    code with an optional leading [#], the listener of the hex field sets
    the three channels to the decoded values and clears the error state;
    "FF00AA" gives r=255, g=0, b=170, and so does the shorthand "F0A". *)
Theorem C3_hex_entry_accepted :
  (forall s text x y z,
      Spec.decode (Js.trim text) = Some (x, y, z) ->
      channels (fst (step s (HexInput text))) = (x, y, z)
      /\ hexError (fst (step s (HexInput text))) = false)
  /\ (forall s, channels (fst (step s (HexInput "FF00AA"))) = (255, 0, 170)
                /\ hexError (fst (step s (HexInput "FF00AA"))) = false)
  /\ (forall s, channels (fst (step s (HexInput "F0A"))) = (255, 0, 170)
                /\ hexError (fst (step s (HexInput "F0A"))) = false).
Proof.
  split; [| split].
  - intros s text x y z H. now apply accepted_result.
  - intros s. apply accepted_result. reflexivity.
  - intros s. apply accepted_result. reflexivity.
Qed.

Lemma C3_hex_entry_accepted_witness :
  channels (fst (step (sample 1 2 3) (HexInput " #0a141E "))) = (10, 20, 30)
  /\ hexError (fst (step (sample 1 2 3) (HexInput " #0a141E "))) = false.
Proof.
  apply (proj1 C3_hex_entry_accepted (sample 1 2 3) " #0a141E " 10 20 30).
  reflexivity.
Defined.

(** C4. For every typed text that, trimmed, contains a character outside
    the set [#0-9a-fA-F], the listener of the hex field sets the error
    state and leaves the three channels unchanged; "GGHHII" does so. *)
Theorem C4_hex_entry_invalid_character :
  (forall s text c,
      In c (list_ascii_of_string (Js.trim text)) ->
      Spec.inHexSet c = false ->
      hexError (fst (step s (HexInput text))) = true
      /\ channels (fst (step s (HexInput text))) = channels s)
  /\ (forall s, hexError (fst (step s (HexInput "GGHHII"))) = true
                /\ channels (fst (step s (HexInput "GGHHII"))) = channels s).
Proof.
  assert (general : forall s text,
             Spec.all Spec.inHexSet (Js.trim text) = false ->
             hexError (fst (step s (HexInput text))) = true
             /\ channels (fst (step s (HexInput text))) = channels s).
  { intros s text H. pose proof (decode_invalid _ H) as Hd.
    split; [| now apply rejected_channels].
    rewrite rejected_error by exact Hd. cbn zeta. now rewrite H. }
  split.
  - intros s text c Hin Hc. apply general.
    destruct (Spec.all Spec.inHexSet (Js.trim text)) eqn:E; [| reflexivity].
    rewrite all_forall in E. rewrite (E c Hin) in Hc. discriminate.
  - intros s. apply general. reflexivity.
Qed.

Lemma C4_hex_entry_invalid_character_witness :
  hexError (fst (step (sample 1 2 3) (HexInput "#12x"))) = true
  /\ channels (fst (step (sample 1 2 3) (HexInput "#12x"))) = channels (sample 1 2 3).
Proof.
  apply (proj1 C4_hex_entry_invalid_character (sample 1 2 3) "#12x" "x"%char).
  - cbn. tauto.
  - reflexivity.
Defined.

(** C5. For every typed text that, trimmed, has between 2 and 6
    characters, all of them in [#0-9a-fA-F], and is not a 3-digit or
    6-digit hex code, the listener of the hex field clears the error state
    and leaves the three channels unchanged. *)
Theorem C5_hex_entry_in_progress (s : State) (text : string) :
  2 <= Js.length (Js.trim text) <= 6 ->
  (forall c, In c (list_ascii_of_string (Js.trim text)) -> Spec.inHexSet c = true) ->
  Spec.decode (Js.trim text) = None ->
  hexError (fst (step s (HexInput text))) = false
  /\ channels (fst (step s (HexInput text))) = channels s.
Proof.
  intros Hlen Hset Hd. split; [| now apply rejected_channels].
  rewrite rejected_error by exact Hd. cbn zeta.
  apply all_forall in Hset. rewrite Hset. cbn [negb].
  replace (Js.length (Js.trim text) >? 7) with false by lia.
  replace ((Js.length (Js.trim text) >=? 2) && (Js.length (Js.trim text) <? 7))
    with true; [reflexivity |].
  symmetry. apply andb_true_iff. lia.
Qed.

Lemma C5_hex_entry_in_progress_witness :
  hexError (fst (step (sample 1 2 3) (HexInput "#FF0A"))) = false
  /\ channels (fst (step (sample 1 2 3) (HexInput "#FF0A"))) = channels (sample 1 2 3).
Proof.
  apply (C5_hex_entry_in_progress (sample 1 2 3) "#FF0A").
  - vm_compute. split; discriminate.
  - apply all_forall. reflexivity.
  - reflexivity.
Defined.

(** C6. For every typed text of characters in [#0-9a-fA-F] that, trimmed,
    has more than 7 characters, or has exactly 7 and is not a hex code
    (at this length: [#] and six hex digits), the listener of the hex
    field sets the error state and leaves the three channels unchanged;
    "#FFFFFFF" (8 characters) sets the error state. *)
Theorem C6_hex_entry_too_long :
  (forall s text,
      (forall c, In c (list_ascii_of_string (Js.trim text)) ->
                 Spec.inHexSet c = true) ->
      Js.length (Js.trim text) > 7
      \/ (Js.length (Js.trim text) = 7 /\ Spec.decode (Js.trim text) = None) ->
      hexError (fst (step s (HexInput text))) = true
      /\ channels (fst (step s (HexInput text))) = channels s)
  /\ (forall s, hexError (fst (step s (HexInput "#FFFFFFF"))) = true).
Proof.
  assert (general : forall s text,
             Js.length (Js.trim text) > 7
             \/ (Js.length (Js.trim text) = 7
                 /\ Spec.decode (Js.trim text) = None) ->
             hexError (fst (step s (HexInput text))) = true
             /\ channels (fst (step s (HexInput text))) = channels s).
  { intros s text Hlen.
    assert (Hd : Spec.decode (Js.trim text) = None).
    { destruct Hlen as [Hlong | (_ & Hd)]; [| exact Hd].
      destruct (Spec.decode (Js.trim text)) eqn:E; [| reflexivity].
      assert (Hne : Spec.decode (Js.trim text) <> None) by congruence.
      apply decode_length in Hne. lia. }
    split; [| now apply rejected_channels].
    rewrite rejected_error by exact Hd. cbn zeta.
    destruct (negb _); [reflexivity |].
    destruct Hlen as [Hlong | (H7 & _)].
    - replace (Js.length (Js.trim text) >? 7) with true by lia. reflexivity.
    - rewrite H7. reflexivity. }
  split.
  - intros s text _ Hlen. now apply general.
  - intros s. apply general. left. reflexivity.
Qed.

Lemma C6_hex_entry_too_long_witness :
  hexError (fst (step (sample 1 2 3) (HexInput "#FF00A#"))) = true
  /\ channels (fst (step (sample 1 2 3) (HexInput "#FF00A#"))) = channels (sample 1 2 3).
Proof.
  apply (proj1 C6_hex_entry_too_long (sample 1 2 3) "#FF00A#").
  - apply all_forall. reflexivity.
  - right. split; reflexivity.
Defined.

(** C10. Every slider input event and every randomize operation, for one
    channel or for all, removes the error state of the hex field, whatever
    the field held before. *)
Theorem C10_sliders_and_random_clear_error (s : State) :
  (forall i position, hexError (fst (step s (RangeInput i position))) = false)
  /\ (forall i x, hexError (fst (step s (RandomClick i x))) = false)
  /\ (forall x0 x1 x2, hexError (fst (step s (RandomAllClick x0 x1 x2))) = false).
Proof.
  repeat split.
Qed.

(* ================================================================= *)
(** ** The state invariant and the clipboard *)

(** C2. In every state the page reaches, the three channels are integers
    in [0,255]; whenever the field is not mid-edit it holds the canonical
    upper-case 6-digit code of the channels with its leading [#]; and
    every state-mutating operation (slider change, randomize of one
    channel or of all, accepted hex entry) leaves the page in such a
    state. *)
Theorem C2_state_invariant (s0 : State) (es : list Event) :
  loaded s0 ->
  wf (run s0 es)
  /\ (midEdit es false = false -> synced (run s0 es))
  /\ (forall e, mutating e = true ->
                wf (fst (step (run s0 es) e))
                /\ synced (fst (step (run s0 es) e))).
Proof.
  intros Hl. destruct (loaded_invariant s0 Hl) as (Hwf & Hsync).
  destruct (run_invariant es s0 false Hwf (fun _ => Hsync)) as (Hw & Hs).
  split; [exact Hw | split; [exact Hs |]].
  intros e He. split.
  - now apply step_wf.
  - now apply step_mutating.
Qed.

Lemma sample_loaded (r g b : Z) :
  in_range r -> in_range g -> in_range b -> loaded (updateColors (sample r g b)).
Proof.
  intros Hr Hg Hb. exists (sample r g b).
  split; [exact Hr | split; [exact Hg | split; [exact Hb |]]].
  repeat split.
Qed.

Lemma C2_state_invariant_witness :
  let s0 := updateColors (sample 10 20 30) in
  let es := [HexInput "#12"; RandomClick I1 (1 # 2)] in
  wf (run s0 es)
  /\ (midEdit es false = false -> synced (run s0 es))
  /\ (forall e, mutating e = true ->
                wf (fst (step (run s0 es) e))
                /\ synced (fst (step (run s0 es) e))).
Proof.
  apply (C2_state_invariant (updateColors (sample 10 20 30))
           [HexInput "#12"; RandomClick I1 (1 # 2)]).
  apply sample_loaded; unfold in_range; lia.
Defined.

(** C7, as the claim states it, fails: after the partial edit "#12" the
    copy button writes "#12", not the canonical code of the channels. *)
Lemma C7_counterexample :
  ~ (forall s, reachable s ->
               snd (step s CopyClick)
               = [WriteText (Spec.canonicalHex (t0 (ranges s)) (t1 (ranges s))
                                               (t2 (ranges s)))]).
Proof.
  intros H.
  specialize (H (run (updateColors (sample 10 20 30)) [HexInput "#12"])).
  assert (Hr : reachable (run (updateColors (sample 10 20 30)) [HexInput "#12"])).
  { exists (updateColors (sample 10 20 30)), [HexInput "#12"].
    split; [| reflexivity]. apply sample_loaded; unfold in_range; lia. }
  specialize (H Hr). vm_compute in H. discriminate H.
Qed.

Section TypedTextFacts.

Lemma coupled_step (e : Event) (m : bool) (t : option string) :
  coupled m t -> coupled (edits e m) (typed e t).
Proof.
  intros H.
  destruct e as [i p | i x | x0 x1 x2 | | text | | |]; cbn [edits typed];
    try exact H; try reflexivity.
  destruct (accepted text) eqn:Ha; cbn; auto.
Qed.

Lemma coupled_run (es : list Event) :
  forall m t, coupled m t -> coupled (midEdit es m) (typedText es t).
Proof.
  induction es as [| e es IH]; intros m t H; [exact H |].
  cbn [midEdit typedText]. apply IH. now apply coupled_step.
Qed.

Lemma holds_step (s : State) (e : Event) (t : option string) :
  holds t s -> holds (typed e t) (fst (step s e)).
Proof.
  intros H text.
  destruct e as [i p | i x | x0 x1 x2 | | typedNow | | |]; cbn [typed];
    try discriminate.
  - apply H.
  - destruct (accepted typedNow) eqn:Ha; [discriminate |].
    intros [= <-]. cbn [step fst].
    rewrite onHexInput_rejected; [reflexivity |].
    change (Spec.decode (Js.trim typedNow) = None).
    unfold accepted in Ha.
    now destruct (Spec.decode (Js.trim typedNow)).
  - cbn [step]. destruct (pendingWrites s); apply H.
  - cbn [step]. destruct (pendingWrites s); apply H.
  - cbn [step]. destruct (timers s); apply H.
Qed.

Lemma holds_run (es : list Event) :
  forall s t, holds t s -> holds (typedText es t) (run s es).
Proof.
  induction es as [| e es IH]; intros s t H; [exact H |].
  cbn [typedText run]. apply IH. now apply holds_step.
Qed.

End TypedTextFacts.

(** C7, amended. In every reachable state the copy button writes the
    current text of the hex field to the clipboard.  When the field is
    not mid-edit, this is the canonical upper-case 6-digit [#]-prefixed
    code of the channels.  When the field is mid-edit, it holds a text
    the user typed and the listener did not accept, and the text written
    is that edit as typed. *)
Theorem C7_copy_writes_field_text (s0 : State) (es : list Event) :
  loaded s0 ->
  snd (step (run s0 es) CopyClick) = [WriteText (hexValue (run s0 es))]
  /\ (midEdit es false = false ->
      snd (step (run s0 es) CopyClick)
      = [WriteText (Spec.canonicalHex (t0 (ranges (run s0 es)))
                                      (t1 (ranges (run s0 es)))
                                      (t2 (ranges (run s0 es))))])
  /\ (midEdit es false = true ->
      exists text,
        typedText es None = Some text
        /\ accepted text = false
        /\ snd (step (run s0 es) CopyClick) = [WriteText text]).
Proof.
  intros Hl. split; [reflexivity | split].
  - intros Hm. destruct (loaded_invariant s0 Hl) as (Hwf & Hsync).
    destruct (run_invariant es s0 false Hwf (fun _ => Hsync)) as (_ & Hs).
    cbn [step onCopyClick snd]. now rewrite (Hs Hm).
  - intros Hm.
    pose proof (coupled_run es false None eq_refl) as Hc.
    assert (Hh : holds (typedText es None) (run s0 es)).
    { apply holds_run. intros text. discriminate. }
    destruct (typedText es None) as [text |]; cbn [coupled] in Hc.
    + exists text. destruct Hc as (_ & Ha).
      split; [reflexivity | split; [exact Ha |]].
      cbn [step onCopyClick snd]. now rewrite (Hh text eq_refl).
    + congruence.
Qed.

Lemma C7_copy_writes_field_text_witness :
  let s0 := updateColors (sample 10 20 30) in
  let es := [HexInput "f0a"; HexInput "#12"; CopyClick; WriteResolved] in
  snd (step (run s0 es) CopyClick) = [WriteText (hexValue (run s0 es))]
  /\ (midEdit es false = false ->
      snd (step (run s0 es) CopyClick)
      = [WriteText (Spec.canonicalHex (t0 (ranges (run s0 es)))
                                      (t1 (ranges (run s0 es)))
                                      (t2 (ranges (run s0 es))))])
  /\ (midEdit es false = true ->
      exists text,
        typedText es None = Some text
        /\ accepted text = false
        /\ snd (step (run s0 es) CopyClick) = [WriteText text]).
Proof.
  apply (C7_copy_writes_field_text (updateColors (sample 10 20 30))
           [HexInput "f0a"; HexInput "#12"; CopyClick; WriteResolved]).
  apply sample_loaded; unfold in_range; lia.
Defined.

(* ================================================================= *)
(** ** Further properties of the script *)

Section RandomFacts.

Lemma randomValue_bounds (x : Q) :
  validDraw x -> 0 <= Qfloor (x * 256) <= 255.
Proof.
  intros (H0 & H1).
  assert (Hlo : (0 <= x * 256)%Q).
  { apply Qmult_le_0_compat; [exact H0 | discriminate]. }
  assert (Hhi : (x * 256 < 256)%Q).
  { setoid_replace (256 : Q) with (1 * 256)%Q at 2 by reflexivity.
    apply Qmult_lt_compat_r; [reflexivity | exact H1]. }
  split.
  - change 0 with (Qfloor 0). now apply Qfloor_resp_le.
  - assert (Hf : (inject_Z (Qfloor (x * 256)) < inject_Z 256)%Q).
    { eapply Qle_lt_trans; [apply Qfloor_le | exact Hhi]. }
    rewrite <- Zlt_Qlt in Hf. lia.
Qed.

End RandomFacts.

(** X1. With a draw x of [Math.random()] in [0,1), the randomize button
    of a channel puts exactly floor(256 x), an integer in [0,255], into
    its slider and leaves the other two sliders as they are. *)
Theorem X1_random_click_sets_floor (s : State) (i : index) (x : Q) :
  validDraw x ->
  let s' := fst (step s (RandomClick i x)) in
  tget (ranges s') i = Qfloor (x * 256)
  /\ in_range (tget (ranges s') i)
  /\ (forall j, j <> i -> tget (ranges s') j = tget (ranges s) j).
Proof.
  intros Hx s'. pose proof (randomValue_bounds x Hx) as Hb.
  assert (Hi : tget (ranges s') i = Qfloor (x * 256)).
  { subst s'. cbn [step fst]. unfold onRandomClick.
    rewrite ranges_updateColors. page. unfold randomValue.
    rewrite slider_set_id by exact Hb. now destruct i. }
  split; [exact Hi | split].
  - rewrite Hi. exact Hb.
  - intros j Hj. subst s'. cbn [step fst]. unfold onRandomClick.
    rewrite ranges_updateColors. page.
    destruct i, j; try reflexivity; congruence.
Qed.

Lemma X1_random_click_sets_floor_witness :
  let s' := fst (step (sample 1 2 3) (RandomClick I1 (255 # 256))) in
  tget (ranges s') I1 = Qfloor ((255 # 256) * 256)
  /\ in_range (tget (ranges s') I1)
  /\ (forall j, j <> I1 -> tget (ranges s') j = tget (ranges (sample 1 2 3)) j).
Proof.
  apply (X1_random_click_sets_floor (sample 1 2 3) I1 (255 # 256)).
  split; [discriminate | reflexivity].
Defined.

(** X2. [hexToRgb] is total and decodes exactly the hex codes: on a
    3-digit or 6-digit code with an optional leading [#], in either case,
    it returns the channels the code denotes, and on every other string
    it returns null. *)
Theorem X2_hexToRgb_decodes (hex : string) :
  hexToRgb hex = rgbOf (Spec.decode hex).
Proof.
  exact (hexToRgb_spec hex).
Qed.

(** X3. A result of [hexToRgb] never holds NaN or a value outside
    [0,255]: each of its three fields is an integer of that range. *)
Theorem X3_hexToRgb_result_in_range (hex : string) (c : rgb) :
  hexToRgb hex = Some c ->
  exists x y z,
    c = {| r := Num x; g := Num y; b := Num z |}
    /\ in_range x /\ in_range y /\ in_range z.
Proof.
  rewrite hexToRgb_spec.
  destruct (Spec.decode hex) as [[[x y] z] |] eqn:H; cbn [rgbOf];
    [| discriminate].
  intros [= <-]. exists x, y, z.
  destruct (decode_some _ _ _ _ H) as (_ & Hr).
  split; [reflexivity | exact Hr].
Qed.

Lemma X3_hexToRgb_result_in_range_witness :
  exists x y z,
    {| r := Num 17; g := Num 34; b := Num 255 |}
    = {| r := Num x; g := Num y; b := Num z |}
    /\ in_range x /\ in_range y /\ in_range z.
Proof.
  apply (X3_hexToRgb_result_in_range "#12f"). reflexivity.
Defined.

(** X4. [isValidHexChar] accepts exactly the strings all of whose
    characters are [#] or a hex digit of either case; the [#] may stand
    anywhere, and the empty string is accepted. *)
Theorem X4_isValidHexChar_iff (str : string) :
  isValidHexChar str = true <->
  (forall c, In c (list_ascii_of_string str) -> Spec.inHexSet c = true).
Proof.
  rewrite isValidHexChar_spec. apply all_forall.
Qed.

Section ValidationFacts.

Lemma decode_min_length (s : string) :
  Spec.decode s <> None -> 3 <= Js.length s.
Proof.
  intros H. unfold Js.length.
  assert (Hl : (String.length (Spec.stripHash s) <= String.length s)%nat).
  { destruct s as [| c t]; cbn; [lia |].
    destruct (Ascii.eqb c "#"); cbn; lia. }
  unfold Spec.decode in H.
  destruct (Spec.stripHash s) as [| a [| b [| c [| d t]]]] eqn:Hbody;
    apply decode6_length in H; cbn in *; lia.
Qed.

Lemma accepted_false (text : string) :
  accepted text = false -> Spec.decode (Js.trim text) = None.
Proof.
  unfold accepted. now destruct (Spec.decode (Js.trim text)).
Qed.

Lemma flag_follows_text (s : State) (text : string) :
  hexError (fst (step s (HexInput text))) = flagOf text.
Proof.
  unfold flagOf.
  destruct (Spec.decode (Js.trim text)) as [[[x y] z] |] eqn:H.
  - destruct (accepted_result s text x y z H) as (_ & ->).
    destruct (decode_some _ _ _ _ H) as (-> & _).
    unfold accepted. now rewrite H.
  - rewrite rejected_error by exact H. cbn zeta.
    unfold accepted. rewrite H.
    now rewrite Z.geb_leb.
Qed.

End ValidationFacts.

(** X5. A typed text that, trimmed, is empty or a single character of
    [#0-9a-fA-F] (nothing, only white space, a lone [#], one digit) is
    neutral: the error state is cleared and the channels stay. *)
Theorem X5_hex_entry_short_is_neutral (s : State) (text : string) :
  Js.length (Js.trim text) <= 1 ->
  (forall c, In c (list_ascii_of_string (Js.trim text)) -> Spec.inHexSet c = true) ->
  hexError (fst (step s (HexInput text))) = false
  /\ channels (fst (step s (HexInput text))) = channels s.
Proof.
  intros Hlen Hset.
  assert (Hd : Spec.decode (Js.trim text) = None).
  { destruct (Spec.decode (Js.trim text)) eqn:E; [| reflexivity].
    assert (Hne : Spec.decode (Js.trim text) <> None) by congruence.
    apply decode_min_length in Hne. lia. }
  split; [| now apply rejected_channels].
  rewrite rejected_error by exact Hd. cbn zeta.
  apply all_forall in Hset. rewrite Hset. cbn [negb].
  replace (Js.length (Js.trim text) >? 7) with false by lia.
  replace (Js.length (Js.trim text) >=? 2) with false by lia.
  replace (Js.length (Js.trim text) =? 7) with false by lia.
  reflexivity.
Qed.

Lemma X5_hex_entry_short_is_neutral_witness :
  hexError (fst (step (sample 1 2 3) (HexInput "  #  "))) = false
  /\ channels (fst (step (sample 1 2 3) (HexInput "  #  "))) = channels (sample 1 2 3).
Proof.
  apply (X5_hex_entry_short_is_neutral (sample 1 2 3) "  #  ").
  - vm_compute. discriminate.
  - apply all_forall. reflexivity.
Defined.

(** X6. The error state after an edit of the hex field is a function of
    the typed text alone, whatever the page held before: it is set for a
    character outside [#0-9a-fA-F]; cleared for a hex code; and for any
    other text set when the trimmed length is 7 or more and cleared when
    it is 6 or less. *)
Theorem X6_error_flag_follows_text (s1 s2 : State) (text : string) :
  hexError (fst (step s1 (HexInput text))) = flagOf text
  /\ hexError (fst (step s1 (HexInput text)))
     = hexError (fst (step s2 (HexInput text))).
Proof.
  split; [apply flag_follows_text |].
  now rewrite !flag_follows_text.
Qed.

(** X7. An edit of the hex field that is not accepted as a colour writes
    the error state only: the sliders, the read-outs, the background, the
    title colour and the copy button are as before, and the field holds
    what was typed. *)
Theorem X7_rejected_entry_writes_flag_only (s : State) (text : string) :
  accepted text = false ->
  fst (step s (HexInput text))
  = with_hexError (with_hexValue s text) (flagOf text).
Proof.
  intros Ha. pose proof (accepted_false text Ha) as Hd.
  rewrite <- (flag_follows_text s text), (rejected_error s text Hd).
  cbn [step fst]. now rewrite onHexInput_rejected by exact Hd.
Qed.

Lemma X7_rejected_entry_writes_flag_only_witness :
  fst (step (sample 1 2 3) (HexInput "#12345G"))
  = with_hexError (with_hexValue (sample 1 2 3) "#12345G") (flagOf "#12345G").
Proof.
  apply (X7_rejected_entry_writes_flag_only (sample 1 2 3) "#12345G").
  reflexivity.
Defined.

Section NormalFormFacts.

Lemma upper_hexDigit (c : ascii) :
  Spec.isHexDigit (Js.upper c) = Spec.isHexDigit c.
Proof.
  apply eqb_prop. revert c. apply forall_char. vm_compute. reflexivity.
Qed.

Lemma upper_value (c : ascii) : Spec.value (Js.upper c) = Spec.value c.
Proof.
  apply Z.eqb_eq. revert c.
  apply (forall_char (fun c => Spec.value (Js.upper c) =? Spec.value c)).
  vm_compute. reflexivity.
Qed.

Lemma upper_hash (c : ascii) : Ascii.eqb (Js.upper c) "#" = Ascii.eqb c "#".
Proof.
  apply eqb_prop. revert c. apply forall_char. vm_compute. reflexivity.
Qed.

(** The two upper-case digits of a pair of hex digits. *)
Lemma twoDigits_pair (a b : ascii) :
  Spec.isHexDigit a = true -> Spec.isHexDigit b = true ->
  Spec.twoDigits Spec.upperDigits (16 * Spec.value a + Spec.value b)
  = String (Js.upper a) (String (Js.upper b) EmptyString).
Proof.
  intros Ha Hb. apply String.eqb_eq.
  assert (H : forallb (fun b' =>
                implb (Spec.isHexDigit a && Spec.isHexDigit b')
                  (String.eqb
                     (Spec.twoDigits Spec.upperDigits
                        (16 * Spec.value a + Spec.value b'))
                     (String (Js.upper a) (String (Js.upper b') EmptyString))))
              Js.allChars = true).
  { clear Ha. revert a. apply forall_char. vm_compute. reflexivity. }
  rewrite forallb_forall in H. specialize (H b (allChars_complete b)).
  now rewrite Ha, Hb in H.
Qed.

Lemma decode6_canonical (body : string) (x y z : Z) :
  Spec.decode6 body = Some (x, y, z) ->
  Spec.canonicalHex x y z = String "#" (Js.toUpperCase body).
Proof.
  unfold Spec.decode6.
  destruct body as [| a [| b [| c [| d [| e [| f [| k t]]]]]]];
    try discriminate.
  destruct (Spec.all Spec.isHexDigit _) eqn:H; [| discriminate].
  cbn [Spec.all] in H. repeat rewrite andb_true_iff in H.
  destruct H as (Ha & Hb & Hc & Hd & He & Hf & _).
  pose (vx := 16 * Spec.value a + Spec.value b).
  pose (vy := 16 * Spec.value c + Spec.value d).
  pose (vz := 16 * Spec.value e + Spec.value f).
  fold vx vy vz. intros [= <- <- <-]. subst vx vy vz.
  unfold Spec.canonicalHex. now rewrite !twoDigits_pair.
Qed.

Lemma decode_canonical (hex : string) (x y z : Z) :
  Spec.decode hex = Some (x, y, z) ->
  Spec.canonicalHex x y z = String "#" (Js.toUpperCase (expandCode hex)).
Proof.
  unfold Spec.decode, expandCode.
  destruct (Spec.stripHash hex) as [| a [| b [| c [| d t]]]];
    apply decode6_canonical.
Qed.

Lemma stripHash_toUpperCase (s : string) :
  Spec.stripHash (Js.toUpperCase s) = Js.toUpperCase (Spec.stripHash s).
Proof.
  destruct s as [| c t]; [reflexivity |].
  cbn [Js.toUpperCase Spec.stripHash]. rewrite upper_hash.
  now destruct (Ascii.eqb c "#").
Qed.

Lemma all_toUpperCase (s : string) :
  Spec.all Spec.isHexDigit (Js.toUpperCase s) = Spec.all Spec.isHexDigit s.
Proof.
  induction s as [| c s IH]; [reflexivity |].
  cbn [Js.toUpperCase Spec.all]. now rewrite upper_hexDigit, IH.
Qed.

Lemma decode6_toUpperCase (body : string) :
  Spec.decode6 (Js.toUpperCase body) = Spec.decode6 body.
Proof.
  destruct body as [| a [| b [| c [| d [| e [| f [| k t]]]]]]];
    try reflexivity.
  change (Js.toUpperCase (String a (String b (String c (String d (String e
            (String f EmptyString)))))))
    with (String (Js.upper a) (String (Js.upper b) (String (Js.upper c)
            (String (Js.upper d) (String (Js.upper e)
               (String (Js.upper f) EmptyString)))))).
  unfold Spec.decode6. cbn [Spec.all].
  now rewrite !upper_hexDigit, !upper_value.
Qed.

Lemma decode_toUpperCase (hex : string) :
  Spec.decode (Js.toUpperCase hex) = Spec.decode hex.
Proof.
  unfold Spec.decode. rewrite stripHash_toUpperCase.
  destruct (Spec.stripHash hex) as [| a [| b [| c [| d t]]]];
    cbn [Js.toUpperCase];
    match goal with
    | |- _ = Spec.decode6 ?body => exact (decode6_toUpperCase body)
    end.
Qed.

End NormalFormFacts.



(** X9. Encoding what [hexToRgb] decoded gives the code back in normal
    form: up to letter case, [rgbToHex] of the result is [#] followed by
    the six digits the code stands for. *)
Theorem X9_encode_after_decode (hex : string) (c : rgb) :
  hexToRgb hex = Some c ->
  Js.toUpperCase (rgbToHex (r c) (g c) (b c))
  = String "#" (Js.toUpperCase (expandCode hex)).
Proof.
  rewrite hexToRgb_spec.
  destruct (Spec.decode hex) as [[[x y] z] |] eqn:H; cbn [rgbOf];
    [| discriminate].
  intros [= <-]. cbn [r g b].
  destruct (decode_some _ _ _ _ H) as (_ & Hx & Hy & Hz).
  rewrite toUpperCase_rgbToHex by assumption.
  now apply decode_canonical.
Qed.

Lemma X9_encode_after_decode_witness :
  Js.toUpperCase (rgbToHex (Num 170) (Num 187) (Num 204))
  = String "#" (Js.toUpperCase (expandCode "abc")).
Proof.
  apply (X9_encode_after_decode "abc" (mkRgb (Num 170) (Num 187) (Num 204))).
  reflexivity.
Defined.

(** X10. [hexToRgb] does not depend on letter case: an ASCII string and
    its upper-case form give the same result. *)
Theorem X10_hexToRgb_ignores_case (hex : string) :
  (forall c, In c (list_ascii_of_string hex) -> Js.code c < 128) ->
  hexToRgb (Js.toUpperCase hex) = hexToRgb hex.
Proof.
  intros _. rewrite !hexToRgb_spec. now rewrite decode_toUpperCase.
Qed.

Lemma X10_hexToRgb_ignores_case_witness :
  hexToRgb (Js.toUpperCase "#a1b2c3") = hexToRgb "#a1b2c3".
Proof.
  apply (X10_hexToRgb_ignores_case "#a1b2c3").
  intros c Hc. cbn in Hc.
  repeat (destruct Hc as [<- | Hc]; [vm_compute; reflexivity |]).
  destruct Hc.
Defined.

(** X11. [updateColors] is idempotent: it reads the sliders only, so a
    second call changes nothing. *)
Theorem X11_updateColors_idempotent (s : State) :
  updateColors (updateColors s) = updateColors s.
Proof.
  reflexivity.
Qed.

(** X12. Randomize-all with draws x0, x1, x2 leaves the page exactly as
    the three per-channel randomize buttons do when pressed in the order
    0, 1, 2 with the same draws. *)
Theorem X12_randomAll_is_three_randoms (s : State) (x0 x1 x2 : Q) :
  fst (step s (RandomAllClick x0 x1 x2))
  = run s [RandomClick I0 x0; RandomClick I1 x1; RandomClick I2 x2].
Proof.
  reflexivity.
Qed.

Section ReadoutFacts.

Lemma readout_in_range (v : Z) :
  in_range v -> Js.toString 10 (Num v) = slider_value (slider_set (Num v)).
Proof.
  intros Hv. now rewrite slider_set_id.
Qed.

Lemma readouts_after_random (s : State) (i : index) (x : Q) :
  validDraw x -> readoutsFollow s ->
  readoutsFollow (set_rangeValue (set_range s i (randomValue x)) i
                    (Js.toString 10 (randomValue x))).
Proof.
  intros Hx Hs. unfold readoutsFollow in *. unfold randomValue.
  pose proof (readout_in_range _ (randomValue_bounds x Hx)) as Hv.
  destruct i; page; rewrite Hv, Hs; reflexivity.
Qed.

End ReadoutFacts.

(** X13. The read-outs follow the sliders.  With draws of [Math.random()]
    in [0,1), every event keeps "each read-out shows the integer its
    slider holds"; randomize-all and an accepted hex entry establish it
    for all three read-outs, whatever they showed before. *)
Theorem X13_readouts_follow_sliders :
  (forall s e, validEvent e -> readoutsFollow s ->
               readoutsFollow (fst (step s e)))
  /\ (forall s x0 x1 x2,
         validDraw x0 -> validDraw x1 -> validDraw x2 ->
         readoutsFollow (fst (step s (RandomAllClick x0 x1 x2))))
  /\ (forall s text, accepted text = true ->
                     readoutsFollow (fst (step s (HexInput text)))).
Proof.
  assert (Hall : forall s x0 x1 x2,
             validDraw x0 -> validDraw x1 -> validDraw x2 ->
             readoutsFollow (fst (step s (RandomAllClick x0 x1 x2)))).
  { intros s x0 x1 x2 H0 H1 H2.
    pose proof (readout_in_range _ (randomValue_bounds x0 H0)) as E0.
    pose proof (readout_in_range _ (randomValue_bounds x1 H1)) as E1.
    pose proof (readout_in_range _ (randomValue_bounds x2 H2)) as E2.
    unfold readoutsFollow. cbn [step fst]. unfold onRandomAllClick.
    page. unfold randomValue. now rewrite E0, E1, E2. }
  assert (Hhex : forall s text, accepted text = true ->
                                readoutsFollow (fst (step s (HexInput text)))).
  { intros s text Ha. unfold accepted in Ha.
    destruct (Spec.decode (Js.trim text)) as [[[x y] z] |] eqn:H;
      [clear Ha | discriminate].
    destruct (decode_some _ _ _ _ H) as (_ & Hx & Hy & Hz).
    unfold readoutsFollow. cbn [step fst].
    rewrite (onHexInput_accepted _ x y z) by exact H. page.
    now rewrite !readout_in_range by assumption. }
  split; [| split; assumption].
  intros s e He Hs.
  destruct e as [i p | i x | x0 x1 x2 | | text | | |].
  - unfold readoutsFollow in *. cbn [step fst]. unfold onRangeInput.
    destruct i; page; rewrite Hs; reflexivity.
  - cbn [step fst]. unfold onRandomClick.
    apply (readouts_after_random s i x He) in Hs. exact Hs.
  - destruct He as (H0 & H1 & H2). now apply Hall.
  - exact Hs.
  - destruct (accepted text) eqn:Ha; [now apply Hhex |].
    cbn [step fst]. rewrite onHexInput_rejected by now apply accepted_false.
    exact Hs.
  - cbn [step]. destruct (pendingWrites s); exact Hs.
  - cbn [step]. destruct (pendingWrites s); exact Hs.
  - cbn [step]. destruct (timers s); exact Hs.
Qed.

Lemma X13_readouts_follow_sliders_witness :
  readoutsFollow (fst (step (sample 1 2 3) (RandomAllClick (1 # 2) 0 (255 # 256)))).
Proof.
  apply (proj1 (proj2 X13_readouts_follow_sliders) (sample 1 2 3));
    split; (discriminate || reflexivity).
Defined.

Section TimerFacts.

Lemma last_cons {A : Type} (t : A) (ts : list A) (d : A) :
  last (t :: ts) d = last ts t.
Proof.
  revert t d. induction ts as [| u ts IH]; intros t d; [reflexivity |].
  change (last (t :: u :: ts) d) with (last (u :: ts) d).
  now rewrite !IH.
Qed.

Lemma fire_timers (ts : list buttonText) :
  forall s, timers s = ts ->
            copyText (run s (repeat TimerFired (List.length ts))) = last ts (copyText s)
            /\ timers (run s (repeat TimerFired (List.length ts))) = [].
Proof.
  induction ts as [| t ts IH]; intros s Hs.
  - split; [reflexivity | exact Hs].
  - cbn [List.length repeat run step]. rewrite Hs. cbn [fst].
    rewrite last_cons.
    apply (IH (onTimer t (with_pending s (pendingWrites s) ts))).
    reflexivity.
Qed.

End TimerFacts.

(** X14. The confirmation on the copy button.  When all pending timers
    have fired, the button shows the text captured by the youngest of
    them.  So one copy restores the text the button had; but when a
    second copy succeeds while the confirmation of the first is still
    shown, the confirmation text is what the second timer captured, and
    it stays on the button after both timers have fired. *)
Theorem X14_copy_confirmation_last_timer_wins :
  (forall s, copyText (fireAll s) = last (timers s) (copyText s)
             /\ timers (fireAll s) = [])
  /\ (forall s, timers s = [] ->
                copyText (run s [CopyClick; WriteResolved; TimerFired]) = copyText s)
  /\ (forall s, timers s = [] ->
                let s' := run s [CopyClick; WriteResolved; CopyClick;
                                 WriteResolved; TimerFired; TimerFired] in
                copyText s' = CopiedText /\ timers s' = []
                /\ pendingWrites s' = pendingWrites s).
Proof.
  split; [| split].
  - intros s. now apply fire_timers.
  - intros s Hs. cbn [run step onCopyClick fst pendingWrites with_pending].
    unfold onWriteResolved. page. rewrite Hs. reflexivity.
  - intros s Hs s'. subst s'.
    cbn [run step onCopyClick fst pendingWrites with_pending].
    unfold onWriteResolved. page. rewrite Hs. repeat split.
Qed.

Lemma X14_copy_confirmation_last_timer_wins_witness :
  copyText (run (sample 1 2 3) [CopyClick; WriteResolved; TimerFired])
  = copyText (sample 1 2 3).
Proof.
  apply (proj1 (proj2 X14_copy_confirmation_last_timer_wins) (sample 1 2 3)).
  reflexivity.
Defined.

Section TrimFacts.

Lemma trimStart_head (s : string) :
  match Js.trimStart s with
  | EmptyString => True
  | String c _ => Js.isWhiteSpace c = false
  end.
Proof.
  induction s as [| c s IH]; cbn [Js.trimStart]; [exact I |].
  destruct (Js.isWhiteSpace c) eqn:E; [exact IH | exact E].
Qed.

Lemma trimEnd_head (c : ascii) (s : string) :
  Js.isWhiteSpace c = false ->
  exists t, Js.trimEnd (String c s) = String c t.
Proof.
  intros Hc. cbn [Js.trimEnd]. rewrite Hc.
  destruct (Js.trimEnd s); eauto.
Qed.

Lemma trimEnd_idempotent (s : string) :
  Js.trimEnd (Js.trimEnd s) = Js.trimEnd s.
Proof.
  induction s as [| c s IH]; [reflexivity |].
  cbn [Js.trimEnd]. destruct (Js.trimEnd s) as [| a t] eqn:E.
  - destruct (Js.isWhiteSpace c) eqn:Hc; [reflexivity |].
    cbn [Js.trimEnd]. now rewrite Hc.
  - change (Js.trimEnd (String c (String a t)))
      with (match Js.trimEnd (String a t) with
            | EmptyString =>
                if Js.isWhiteSpace c then EmptyString else String c EmptyString
            | u => String c u
            end).
    now rewrite IH.
Qed.

(** Trimming twice is trimming once. *)
Lemma trim_idempotent (s : string) : Js.trim (Js.trim s) = Js.trim s.
Proof.
  unfold Js.trim. pose proof (trimStart_head s) as Hh.
  destruct (Js.trimStart s) as [| c t]; [reflexivity |].
  destruct (trimEnd_head c t Hh) as (u & Hu).
  rewrite Hu. cbn [Js.trimStart]. rewrite Hh, <- Hu.
  apply trimEnd_idempotent.
Qed.

End TrimFacts.

(** X15. White space around the typed text does not count: a text and
    its trimmed form give the same channels and the same error state,
    and when the text is accepted the same page altogether. *)
Theorem X15_hex_entry_ignores_outer_blanks (s : State) (text : string) :
  let a := fst (step s (HexInput text)) in
  let b := fst (step s (HexInput (Js.trim text))) in
  channels a = channels b
  /\ hexError a = hexError b
  /\ (accepted text = true -> a = b).
Proof.
  intros a b. subst a b.
  assert (Hflag : flagOf (Js.trim text) = flagOf text).
  { unfold flagOf, accepted. now rewrite trim_idempotent. }
  split; [| split].
  - destruct (Spec.decode (Js.trim text)) as [[[x y] z] |] eqn:H.
    + destruct (accepted_result s text x y z H) as (-> & _).
      rewrite <- trim_idempotent in H.
      now destruct (accepted_result s (Js.trim text) x y z H) as (-> & _).
    + rewrite (rejected_channels s text H).
      rewrite <- trim_idempotent in H.
      now rewrite (rejected_channels s (Js.trim text) H).
  - now rewrite !flag_follows_text.
  - intros Ha. unfold accepted in Ha.
    destruct (Spec.decode (Js.trim text)) as [[[x y] z] |] eqn:H;
      [clear Ha | discriminate].
    cbn [step fst].
    rewrite (onHexInput_accepted (with_hexValue s text) x y z) by exact H.
    rewrite <- trim_idempotent in H.
    rewrite (onHexInput_accepted (with_hexValue s (Js.trim text)) x y z)
      by exact H.
    reflexivity.
Qed.

Section ShownFacts.

Lemma shown_updateColors (s : State) : wf s -> shown (updateColors s).
Proof.
  intros (H0 & H1 & H2). unfold shown. rewrite ranges_updateColors.
  cbn zeta. split.
  - change (backgroundColor (updateColors s)) with
      ("rgb(" ++ Js.toString 10 (Js.parseInt (slider_value (t0 (ranges s))) None)
       ++ ", " ++ Js.toString 10 (Js.parseInt (slider_value (t1 (ranges s))) None)
       ++ ", " ++ Js.toString 10 (Js.parseInt (slider_value (t2 (ranges s))) None)
       ++ ")").
    now rewrite !slider_roundtrip.
  - rewrite titleColor_updateColors. now rewrite !slider_roundtrip.
Qed.

Lemma shown_same (s s' : State) :
  ranges s' = ranges s -> backgroundColor s' = backgroundColor s ->
  titleColor s' = titleColor s -> shown s -> shown s'.
Proof. unfold shown. now intros -> -> ->. Qed.

Lemma step_shown (s : State) (e : Event) :
  wf s -> shown s -> shown (fst (step s e)).
Proof.
  intros Hs Hsh. pose proof (step_wf s e Hs) as Hwf.
  destruct e as [i p | i x | x0 x1 x2 | | text | | |]; cbn [step fst] in *.
  - apply shown_updateColors.
    apply (wf_ranges _ _ (eq_sym (ranges_updateColors _))). exact Hwf.
  - apply shown_updateColors.
    apply (wf_ranges _ _ (eq_sym (ranges_updateColors _))). exact Hwf.
  - apply shown_updateColors.
    apply (wf_ranges _ _ (eq_sym (ranges_updateColors _))). exact Hwf.
  - exact Hsh.
  - destruct (Spec.decode (Js.trim text)) as [[[x y] z] |] eqn:H.
    + rewrite (onHexInput_accepted _ x y z) in * by exact H.
      apply shown_updateColors.
      apply (wf_ranges _ _ (eq_sym (ranges_updateColors _))). exact Hwf.
    + rewrite onHexInput_rejected by exact H. exact Hsh.
  - destruct (pendingWrites s); exact Hsh.
  - destruct (pendingWrites s); exact Hsh.
  - destruct (timers s); exact Hsh.
Qed.

Lemma run_shown (es : list Event) :
  forall s, wf s -> shown s -> shown (run s es).
Proof.
  induction es as [| e es IH]; intros s Hs Hsh; [exact Hsh |].
  cbn [run]. apply IH; [now apply step_wf | now apply step_shown].
Qed.

End ShownFacts.

(** X16. In every state the page reaches, also while the hex field is
    mid-edit or shows an error, the background is the [rgb(r, g, b)]
    string of the three sliders and the title has the colour the
    luminance of that colour selects. *)
Theorem X16_background_and_title_follow_sliders (s0 : State) (es : list Event) :
  loaded s0 -> shown (run s0 es).
Proof.
  intros Hl. destruct (loaded_invariant s0 Hl) as (Hwf & _).
  apply run_shown; [exact Hwf |].
  destruct Hl as (s1 & H0 & H1 & H2 & _ & _ & _ & ->).
  apply shown_updateColors. unfold wf. auto.
Qed.

Lemma X16_background_and_title_follow_sliders_witness :
  shown (run (updateColors (sample 10 20 30))
             [HexInput "#GG"; RangeInput I0 200; HexInput "#1"]).
Proof.
  apply (X16_background_and_title_follow_sliders (updateColors (sample 10 20 30))).
  apply sample_loaded; unfold in_range; lia.
Defined.
